(** * SCClient: the public API of the state-channel client (src/index.js)

    A shallow embedding of class [SCClient].  The class is thin
    orchestration over injected collaborators (the database helper, the
    blockchain proxy, the socket, the message and proof generators).  Every
    call on a collaborator is recorded, in program order, in a trace, so that
    statements such as "persisted before emitted" or "no chain call" are
    statements about that trace. *)

From Stdlib Require Import ZArith List Lia.
From stdpp Require Import gmap strings list.

Local Open Scope string_scope.
Local Open Scope list_scope.
Local Open Scope Z_scope.

(** ** Data model *)

Abbreviation Address := string.
Abbreviation ChannelId := string.
Abbreviation Hash := string.
Abbreviation Signature := string.

(** Modelled from the spec: Constants.js is not part of src/.  The channel
    status values are those of section 3.1; the code only compares them with
    [!=]. *)
Inductive ChannelStatus :=
| CHANNEL_OPENED
| CHANNEL_CLOSED
| CHANNEL_UPDATEBALANCEPROOF
| CHANNEL_SETTLED.

#[global] Instance ChannelStatus_eq_dec : EqDecision ChannelStatus.
Proof. solve_decision. Defined.

(** Modelled from the spec: Constants.js is not part of src/.  The bet status
    values are those of section 3.1, and the code compares them with [<] and
    [==], so each one carries its position in the lifecycle of section 3.3. *)
Inductive BetStatus :=
| BET_INIT
| BET_START
| BET_LOCKEDTRANSFER_SENT
| BET_LOCKEDTRANSFER_R_SENT
| BET_BETRESPONSE_RECEIVED
| BET_PREIMAGE_SENT
| BET_DIRECTTRANSFER_SENT
| BET_FINISH.

#[global] Instance BetStatus_eq_dec : EqDecision BetStatus.
Proof. solve_decision. Defined.

Definition bet_status_code (s : BetStatus) : Z :=
  match s with
  | BET_INIT => 0
  | BET_START => 1
  | BET_LOCKEDTRANSFER_SENT => 2
  | BET_LOCKEDTRANSFER_R_SENT => 3
  | BET_BETRESPONSE_RECEIVED => 4
  | BET_PREIMAGE_SENT => 5
  | BET_DIRECTTRANSFER_SENT => 6
  | BET_FINISH => 7
  end.

(** ** JavaScript numbers

    The numbers the methods compute with are integers held in doubles: what
    [parseInt] returns and what [currentRound + 1] and the subtractions of
    startBet give.  An integer is a double when 53 significant bits hold it;
    an operation on integers gives the double nearest to the exact result,
    the even one of two equally near, and infinity from 2^1024 on.  The two
    zeros are not told apart: no test of the code separates them. *)
Module JsNumber.

(** The nearest integer of 53 significant bits, for [n >= 0]. *)
Definition nearest_nat (n : Z) : Z :=
  let e := Z.log2 n - 52 in
  if e <=? 0 then n
  else
    let q := Z.shiftr n e in
    let r := Z.land n (Z.ones e) in
    let half := Z.shiftl 1 (e - 1) in
    Z.shiftl (if (half <? r) || ((r =? half) && Z.odd q) then q + 1 else q) e.

Definition nearest (z : Z) : Z := Z.sgn z * nearest_nat (Z.abs z).

Inductive t :=
| NaN
| Infinity (negative : bool)
| Finite (z : Z).

(** The Number value of the integer [z]. *)
Definition of_Z (z : Z) : t :=
  let d := nearest z in
  if 2 ^ 1024 <=? Z.abs d then Infinity (d <? 0) else Finite d.

(** [a - b] *)
Definition sub (a b : t) : t :=
  match a, b with
  | NaN, _ | _, NaN => NaN
  | Infinity s, Infinity s' => if Bool.eqb s s' then NaN else Infinity s
  | Infinity s, Finite _ => Infinity s
  | Finite _, Infinity s => Infinity (negb s)
  | Finite x, Finite y => of_Z (x - y)
  end.

(** [a < 0] *)
Definition ltb_zero (a : t) : bool :=
  match a with
  | NaN => false
  | Infinity negative => negative
  | Finite z => z <? 0
  end.

(** The safe integers: those below 2^53 in absolute value. *)
Definition safe (z : Z) : Prop := Z.abs z < 2 ^ 53.

End JsNumber.

(** A channel row.  An amount is the integer the stored value stands for
    (section 3.1); the code reads it through [parseInt].  [currentRound] is a
    number, or [None] for JavaScript's [null], which startBet tests for. *)
Module Channel.
Record t := mk {
  channelId : ChannelId;
  partner : Address;
  status : ChannelStatus;
  localBalance : Z;
  remoteBalance : Z;
  currentRound : option Z;
  localCloseBalanceHash : Hash;
  remoteCloseBalanceHash : Hash
}.

Definition set_currentRound (r : Z) (c : t) : t :=
  mk (channelId c) (partner c) (status c) (localBalance c) (remoteBalance c)
     (Some r) (localCloseBalanceHash c) (remoteCloseBalanceHash c).
End Channel.

(** A bet row: the fields startBet writes, the key the store assigns, and the
    acceptor's random and signature that later messages fill in. *)
Module Bet.
Record t := mk {
  betId : nat;
  gameContractAddress : Address;
  channelId : ChannelId;
  round : Z;
  betMask : Z;
  modulo : Z;
  value : Z;
  winAmount : Z;
  positiveA : Address;
  hashRa : Hash;
  ra : option Hash;
  signatureA : Signature;
  negativeB : Address;
  rb : option Hash;
  signatureB : option Signature;
  status : BetStatus
}.

Definition set_betId (i : nat) (b : t) : t :=
  mk i (gameContractAddress b) (channelId b) (round b) (betMask b) (modulo b)
     (value b) (winAmount b) (positiveA b) (hashRa b) (ra b) (signatureA b)
     (negativeB b) (rb b) (signatureB b) (status b).
End Bet.

(** The object messageGenerator.generateBetRequest returns; startBet then
    assigns its [value] property. *)
Module BetRequest.
Record t := mk {
  channelIdentifier : ChannelId;
  round : Z;
  betMask : Z;
  modulo : Z;
  positiveA : Address;
  negativeB : Address;
  hashRa : Hash;
  gameContractAddress : Address;
  signatureA : Signature;
  value : option Z
}.

Definition set_value (v : Z) (m : t) : t :=
  mk (channelIdentifier m) (round m) (betMask m) (modulo m) (positiveA m)
     (negativeB m) (hashRa m) (gameContractAddress m) (signatureA m) (Some v).
End BetRequest.

Record CloseData := mkCloseData {
  balanceHash : Hash;
  nonce : Z;
  signature : Signature
}.

Record SettleData := mkSettleData {
  participant1 : Address;
  participant1_transferred_amount : Z;
  participant1_locked_amount : Z;
  participant1_lock_id : Hash;
  participant2 : Address;
  participant2_transferred_amount : Z;
  participant2_locked_amount : Z;
  participant2_lock_id : Hash
}.

Module InitiatorSettleData.
Record t := mk {
  channelIdentifier : ChannelId;
  round : Z;
  betMask : Z;
  modulo : Z;
  positive : Address;
  negative : Address;
  initiatorHashR : Hash;
  initiatorSignature : Signature;
  acceptorR : option Hash;
  acceptorSignature : option Signature;
  initiatorR : Hash
}.
End InitiatorSettleData.

(** ** Values, exceptions and effects *)

(** What an API method resolves to. *)
Inductive Value :=
| VUndefined
| VBool (b : bool)
| VTxHash (h : Hash)
| VEmptyObject
| VChannels (cs : list Channel.t)
| VBet (b : option Bet.t)
| VThis.

(** A rejected promise carries a JavaScript error: its [name] and message. *)
Inductive Thrown :=
| JsError (name : string) (message : string).

Definition TypeError (message : string) : Thrown := JsError "TypeError" message.

Inductive Outcome (A : Type) :=
| Return (a : A)
| Throw (e : Thrown).
Arguments Return {A} a.
Arguments Throw {A} e.

(** The transactions blockchainProxy can submit.  initiatorSettle passes the
    fields of the proof, with [parseInt(betMask)] in the place of the mask:
    that number is the second argument of [TxInitiatorSettle]. *)
Inductive ChainCall :=
| TxOpenChannel (from partner : Address) (settle_window deposit : Z)
| TxDeposit (from partner : Address) (amount : Z)
| TxCloseChannel (partner : Address) (balanceHash : Hash) (nonce : Z)
                 (signature : Signature)
| TxSettle (d : SettleData)
| TxUnlock (from partner : Address) (lockIdentifier : Hash)
| TxInitiatorSettle (d : InitiatorSettleData.t) (betMask : JsNumber.t).

Inductive Effect :=
| LogInfo (msg : string)
| LogError (msg : string)
| DbGetChannel (id : ChannelId)
| DbGetChannels
| DbGetBetByChannel (id : ChannelId) (round : option Z)
| DbGetBet (betId : nat)
| DbAddBet (b : Bet.t)
| DbUpdateChannel (id : ChannelId) (currentRound : Z)
| SocketEmit (event : string) (payload : BetRequest.t)
| ChainGetChannelIdentifier (partner : Address)
| ChainSend (c : ChainCall).

(** A registered callback is known by its function reference.  It is a
    function with no properties but those every function has. *)
Inductive Callback :=
| Handler (ref : nat).

(** [this.eventList]: a plain object, created as [{}].  Its own properties
    are the registrations; its prototype is Object.prototype ([None]) until an
    assignment under the name __proto__ runs the setter inherited from
    Object.prototype, which makes the assigned function the prototype. *)
Record EventList := mkEventList {
  own : gmap string Callback;
  prototype : option Callback
}.

#[global] Instance EventList_empty : Empty EventList := mkEventList ∅ None.

(** The client and its collaborators' state.  [socket] is false until
    initMessageHandler has stored the socket.io instance in [this.socket].
    [eventList] is the object that [on] writes into and that the event manager
    reads. *)
Record World := mkWorld {
  channels : gmap string Channel.t;
  bets : list Bet.t;
  socket : bool;
  eventList : EventList;
  trace : list Effect
}.

(** ** The monad of API methods: state and rejection *)

Definition M (A : Type) : Type := World -> Outcome A * World.

Definition ret {A} (a : A) : M A := fun w => (Return a, w).

Definition throw {A} (e : Thrown) : M A := fun w => (Throw e, w).

Definition bind {A B} (m : M A) (k : A -> M B) : M B :=
  fun w =>
    match m w with
    | (Return a, w') => k a w'
    | (Throw e, w') => (Throw e, w')
    end.

Notation "'let*' x ':=' m 'in' k" := (bind m (fun x => k))
  (at level 10, x name, m at level 100, k at level 200).
Notation "m ';;' k" := (bind m (fun _ => k))
  (at level 100, k at level 200, right associativity).

Definition record (e : Effect) : M unit :=
  fun w =>
    (Return tt,
     mkWorld (channels w) (bets w) (socket w) (eventList w) (trace w ++ [e])).

Definition logInfo (msg : string) : M unit := record (LogInfo msg).
Definition logError (msg : string) : M unit := record (LogError msg).

Definition await {A} (o : Outcome A) : M A := fun w => (o, w).

(** ** The database helper *)

(** Modelled from the spec: the dbhelper object is injected into the
    constructor and its code is not part of src/.  It is the store adapter of
    section 4.3: channels keyed by channel identifier, bets found by
    (channel, round) or by their own id; a lookup that finds nothing resolves
    to null.  Each call is recorded in the trace. *)
Module dbhelper.

Definition getChannel (id : ChannelId) : M (option Channel.t) :=
  record (DbGetChannel id) ;;
  fun w => (Return (channels w !! id), w).

Definition getChannels : M (list Channel.t) :=
  record DbGetChannels ;;
  fun w => (Return (map snd (map_to_list (channels w))), w).

Definition bet_matches (id : ChannelId) (round : option Z) (b : Bet.t) : bool :=
  bool_decide (Bet.channelId b = id) && bool_decide (round = Some (Bet.round b)).

Definition getBetByChannel (id : ChannelId) (round : option Z)
  : M (option Bet.t) :=
  record (DbGetBetByChannel id round) ;;
  fun w => (Return (find (bet_matches id round) (bets w)), w).

Definition getBet (betId : nat) : M (option Bet.t) :=
  record (DbGetBet betId) ;;
  fun w =>
    (Return (find (fun b => bool_decide (Bet.betId b = betId)) (bets w)), w).

(** The new row gets the next free id. *)
Definition addBet (b : Bet.t) : M unit :=
  record (DbAddBet b) ;;
  fun w =>
    (Return tt,
     mkWorld (channels w)
             (bets w ++ [Bet.set_betId (S (length (bets w))) b])
             (socket w) (eventList w) (trace w)).

(** [updateChannel(id, { currentRound })]: only that column changes. *)
Definition updateChannel (id : ChannelId) (currentRound : Z) : M unit :=
  record (DbUpdateChannel id currentRound) ;;
  fun w =>
    (Return tt,
     mkWorld (alter (Channel.set_currentRound currentRound) id (channels w))
             (bets w) (socket w) (eventList w) (trace w)).

End dbhelper.

(** ** The other collaborators *)

Inductive ChainReply :=
| TxHash (h : Hash)
| Reverted (e : Thrown).

(** The collaborators whose code is not part of src/ and whose results the
    methods only pass along: the client's own address, the random and hash
    utilities, the game rule, the message generator, two of the proof
    generator's assemblers, and the chain behind blockchainProxy.

    [parseInt z] is what JavaScript's [parseInt] returns for the value that
    stands for the integer [z].  For a safe integer that is [z] itself,
    however the value is held (a number, a decimal string, a BigInt); beyond,
    it depends on how the value is held (a number prints in exponent form from
    1e21 on, the digits of a string are rounded to a double), which the source
    does not fix: so it is a parameter, and [parseInt_exact] is the one fact
    the statements use of it. *)
Record Env := mkEnv {
  from : Address;
  generateRandomFromSeed2 : string -> Hash;
  soliditySha3 : Hash -> Hash;
  getPossibleWinAmount : Z -> Z -> Z -> Z;
  generateBetRequest :
    ChannelId -> Z -> Z -> Z -> Address -> Address -> Hash -> BetRequest.t;
  getCloseData : World -> Channel.t -> Outcome CloseData;
  getSettleData : World -> Channel.t -> Hash -> Hash -> Outcome SettleData;
  getChannelIdentifier : Address -> ChannelId;
  chain : ChainCall -> ChainReply;
  parseInt : Z -> JsNumber.t
}.

Definition parseInt_exact (env : Env) : Prop :=
  forall z, JsNumber.safe z -> parseInt env z = JsNumber.Finite z.

(** Modelled from the spec: utils/proofGenerator.js is not part of src/.
    Section 4.4 (4): the initiator-settle proof is the tuple (channel_id,
    round, bet_mask, modulo, positive, negative, hashRa, initiator_signature,
    Rb, acceptor_signature, Ra) of the disputed bet, and the assembler asserts
    that the bet status is at least Start and that Ra is locally known. *)
Definition getInitiatorSettleData (channel : Channel.t) (bet : Bet.t)
  : Outcome InitiatorSettleData.t :=
  match Bet.ra bet with
  | Some ra =>
      if bet_status_code BET_START <=? bet_status_code (Bet.status bet) then
        Return (InitiatorSettleData.mk
                  (Channel.channelId channel) (Bet.round bet) (Bet.betMask bet)
                  (Bet.modulo bet) (Bet.positiveA bet) (Bet.negativeB bet)
                  (Bet.hashRa bet) (Bet.signatureA bet) (Bet.rb bet)
                  (Bet.signatureB bet) ra)
      else Throw (JsError "AssertionError" "bet status is below Start")
  | None => Throw (JsError "AssertionError" "Ra is not known")
  end.

(** [this.socket.emit(event, payload)]: a TypeError while [this.socket] is
    still undefined. *)
Definition socket_emit (event : string) (payload : BetRequest.t) : M unit :=
  fun w =>
    if socket w then record (SocketEmit event payload) w
    else (Throw (TypeError "Cannot read properties of undefined (reading 'emit')"), w).

Module blockchainProxy.
Section WithEnv.
Variable env : Env.

(** A read of the contract, resolving to the channel identifier. *)
Definition getChannelIdentifier (partner : Address) : M ChannelId :=
  record (ChainGetChannelIdentifier partner) ;;
  ret (getChannelIdentifier env partner).

(** Submitting a transaction resolves to its hash or rejects. *)
Definition send (c : ChainCall) : M Hash :=
  record (ChainSend c) ;;
  match chain env c with
  | TxHash h => ret h
  | Reverted e => throw e
  end.

End WithEnv.
End blockchainProxy.

(** ** The methods of class SCClient *)

Module SCClient.
Section Methods.
Variable env : Env.

(** [let settle_window = 6] is fixed in the body. *)
Definition openChannel (partnerAddress : Address) (depositAmount : Z) : M Value :=
  let settle_window := 6 in
  let* h := blockchainProxy.send env
              (TxOpenChannel (from env) partnerAddress settle_window
                 depositAmount) in
  ret (VTxHash h).

Definition deposit (partnerAddress : Address) (depositAmount : Z) : M Value :=
  let* h := blockchainProxy.send env
              (TxDeposit (from env) partnerAddress depositAmount) in
  ret (VTxHash h).

(** [lastBet != null && lastBet.status != Constants.BET_FINISH] *)
Definition unfinished (lastBet : option Bet.t) : bool :=
  match lastBet with
  | Some b => bool_decide (Bet.status b <> BET_FINISH)
  | None => false
  end.

(** [channel.currentRound == null ? 1 : channel.currentRound + 1], the sum
    being that of two numbers: the double nearest to [r + 1]. *)
Definition next_round (currentRound : option Z) : Z :=
  match currentRound with
  | None => 1
  | Some r => JsNumber.nearest (r + 1)
  end.

(** [parseInt(channel.remoteBalance) - parseInt(winAmount) < 0 ||
    parseInt(channel.localBalance) - parseInt(betValue) < 0] *)
Definition insufficient (channel : Channel.t) (winAmount betValue : Z) : bool :=
  JsNumber.ltb_zero
    (JsNumber.sub (parseInt env (Channel.remoteBalance channel))
                  (parseInt env winAmount))
  || JsNumber.ltb_zero
       (JsNumber.sub (parseInt env (Channel.localBalance channel))
                     (parseInt env betValue)).

(** The [console.time] calls are left out; the logged objects are reduced to
    the message's first argument.  The first guard returns with a bare
    [return;], the two later ones with [return false]. *)
Definition startBet (channelIdentifier : ChannelId) (partnerAddress : Address)
    (betMask modulo betValue : Z) (randomSeed : string) : M Value :=
  let* channel := dbhelper.getChannel channelIdentifier in
  match channel with
  | None => logError "channel not exist in db" ;; ret VUndefined
  | Some channel =>
    if bool_decide (Channel.status channel <> CHANNEL_OPENED) then
      logError "channel not exist in db" ;; ret VUndefined
    else
      let* lastBet := dbhelper.getBetByChannel channelIdentifier
                        (Channel.currentRound channel) in
      if unfinished lastBet then
        logInfo "There are unfinished bet, can not start new bet" ;;
        ret (VBool false)
      else
        let round := next_round (Channel.currentRound channel) in
        logInfo "new Round is " ;;
        let ra := generateRandomFromSeed2 env randomSeed in
        let hashRa := soliditySha3 env ra in
        let betRequestMessage :=
          BetRequest.set_value betValue
            (generateBetRequest env channelIdentifier round betMask modulo
               (from env) partnerAddress hashRa) in
        logInfo "betRequestMessage" ;;
        let winAmount := getPossibleWinAmount env betMask modulo betValue in
        if insufficient channel winAmount betValue then
          logError "insufficient balance to bet localBalance" ;;
          ret (VBool false)
        else
          dbhelper.addBet
            (Bet.mk 0 (BetRequest.gameContractAddress betRequestMessage)
               channelIdentifier round betMask modulo betValue winAmount
               (from env) hashRa (Some ra)
               (BetRequest.signatureA betRequestMessage)
               (BetRequest.negativeB betRequestMessage)
               None None BET_INIT) ;;
          dbhelper.updateChannel channelIdentifier round ;;
          socket_emit "BetRequest" betRequestMessage ;;
          ret (VBool true)
  end.

(** There is no [!channel] test here: [channel.status] on null throws. *)
Definition closeChannel (partnerAddress : Address) : M Value :=
  let* channelIdentifier :=
    blockchainProxy.getChannelIdentifier env partnerAddress in
  let* channel := dbhelper.getChannel channelIdentifier in
  match channel with
  | None => throw (TypeError "Cannot read properties of null (reading 'status')")
  | Some channel =>
    if bool_decide (Channel.status channel <> CHANNEL_OPENED) then
      logError "Channel is not open now" ;; ret (VBool false)
    else
      let* closeData := (fun w => (getCloseData env w channel, w)) in
      let* h := blockchainProxy.send env
                  (TxCloseChannel partnerAddress (balanceHash closeData)
                     (nonce closeData) (signature closeData)) in
      ret (VTxHash h)
  end.

(** [channel.status != CHANNEL_CLOSED && channel.status != CHANNEL_UPDATEBALANCEPROOF] *)
Definition not_closed (c : Channel.t) : bool :=
  bool_decide (Channel.status c <> CHANNEL_CLOSED)
  && bool_decide (Channel.status c <> CHANNEL_UPDATEBALANCEPROOF).

Definition reject_channel : M Value :=
  logError "channel not exist or channel status is not in (Closed, UpdateBalanceProof)" ;;
  ret (VBool false).

Definition settleChannel (partnerAddress : Address) : M Value :=
  let* channelIdentifier :=
    blockchainProxy.getChannelIdentifier env partnerAddress in
  let* channel := dbhelper.getChannel channelIdentifier in
  match channel with
  | None => reject_channel
  | Some channel =>
    if not_closed channel then reject_channel
    else
      let* settleData :=
        (fun w => (getSettleData env w channel
                     (Channel.localCloseBalanceHash channel)
                     (Channel.remoteCloseBalanceHash channel), w)) in
      let* h := blockchainProxy.send env (TxSettle settleData) in
      ret (VTxHash h)
  end.

(** The awaited hash is dropped: the body has no [return]. *)
Definition unlockChannel (partnerAddress : Address) (lockIdentifier : Hash)
  : M Value :=
  let* _ := blockchainProxy.send env
              (TxUnlock (from env) partnerAddress lockIdentifier) in
  ret VUndefined.

(** [bet.status < Constants.BET_START || bet.status == Constants.BET_FINISH] *)
Definition bet_status_wrong (b : Bet.t) : bool :=
  (bet_status_code (Bet.status b) <? bet_status_code BET_START)
  || bool_decide (Bet.status b = BET_FINISH).

Definition reject_bet : M Value :=
  logError "bet not exist or bet status is not correct" ;;
  ret (VBool false).

(** The third argument of the call is [parseInt(initiatorSettleData.betMask)]. *)
Definition initiatorSettle (channelIdentifier : ChannelId) (betId : nat)
  : M Value :=
  let* channel := dbhelper.getChannel channelIdentifier in
  let* bet := dbhelper.getBet betId in
  match channel with
  | None => reject_channel
  | Some channel =>
    if not_closed channel then reject_channel
    else
      match bet with
      | None => reject_bet
      | Some bet =>
        if bet_status_wrong bet then reject_bet
        else
          let* initiatorSettleData :=
            await (getInitiatorSettleData channel bet) in
          let* h := blockchainProxy.send env
                      (TxInitiatorSettle initiatorSettleData
                         (parseInt env
                            (InitiatorSettleData.betMask initiatorSettleData))) in
          ret (VTxHash h)
      end
  end.

Definition getAllChannels : M Value :=
  let* cs := dbhelper.getChannels in
  ret (VChannels cs).

(** The body is [return {}]. *)
Definition getChannel (partnerAddress : Address) : M Value :=
  ret VEmptyObject.

Definition getBetById (betId : nat) : M Value :=
  let* b := dbhelper.getBet betId in
  ret (VBet b).

(** The names under which every function holds, or inherits from
    Function.prototype, a property that an assignment on an object below it
    cannot shadow: a read-only one, or an accessor whose setter throws. *)
Definition unassignable (name : string) : bool :=
  bool_decide (name ∈ ["name"; "length"; "caller"; "arguments"]).

(** [eventList[event] = callback], in strict mode (the body of a class is
    strict).  An own property is overwritten.  Otherwise the name is looked up
    along the prototype chain: __proto__ finds the setter of Object.prototype,
    which makes the callback the prototype and adds no property; a name that
    cannot be shadowed throws a TypeError; any other name, inherited or not,
    becomes an own property. *)
Definition assign (event : string) (callback : Callback) (o : EventList)
  : Outcome EventList :=
  match own o !! event with
  | Some _ => Return (mkEventList (<[event := callback]> (own o)) (prototype o))
  | None =>
    if bool_decide (event = "__proto__") then
      Return (mkEventList (own o) (Some callback))
    else
      match prototype o with
      | Some _ =>
        if unassignable event then
          Throw (TypeError "Cannot assign to read only property")
        else Return (mkEventList (<[event := callback]> (own o)) (prototype o))
      | None => Return (mkEventList (<[event := callback]> (own o)) (prototype o))
      end
  end.

(** [this.eventList[event] = callback; return this] *)
Definition on (event : string) (callback : Callback) : M Value :=
  logInfo "onEvent set event now" ;;
  (fun w =>
     match assign event callback (eventList w) with
     | Return o =>
         (Return tt, mkWorld (channels w) (bets w) (socket w) o (trace w))
     | Throw e => (Throw e, w)
     end) ;;
  ret VThis.

End Methods.
End SCClient.

(** closeChannelCooperative emits a message of another kind than BetRequest.
    The object messageGenerator.genreateCooperativeSettleRequest returns is
    kept abstract, the generator is a parameter, and the messages the call
    emits on the socket are returned beside its value, in the order of their
    emission (here: after both lookups, as the last thing the call does). *)
Module Cooperative.
Section WithGenerator.
Variable Request : Type.
Variable genreateCooperativeSettleRequest :
  ChannelId -> Address -> Z -> Address -> Z -> Request.
Variable env : Env.

Definition reject : M (Value * list (string * Request)) :=
  logError "channel not exist or channel is not open" ;;
  ret (VBool false, []).

(** [this.socket.emit(event, payload)], not awaited: a TypeError while
    [this.socket] is still undefined. *)
Definition socket_emit (event : string) (payload : Request)
  : M (list (string * Request)) :=
  fun w =>
    if socket w then (Return [(event, payload)], w)
    else (Throw (TypeError "Cannot read properties of undefined (reading 'emit')"), w).

Definition closeChannelCooperative (partnerAddress : Address)
  : M (Value * list (string * Request)) :=
  let* channelIdentifier :=
    blockchainProxy.getChannelIdentifier env partnerAddress in
  let* channel := dbhelper.getChannel channelIdentifier in
  match channel with
  | None => reject
  | Some channel =>
    if bool_decide (Channel.status channel <> CHANNEL_OPENED) then reject
    else
      let localBalance := Channel.localBalance channel in
      let remoteBalance := Channel.remoteBalance channel in
      let cooperativeSettleRequestMessage :=
        genreateCooperativeSettleRequest channelIdentifier (from env)
          localBalance partnerAddress remoteBalance in
      let* emitted :=
        socket_emit "CooperativeSettleRequest" cooperativeSettleRequestMessage in
      ret (VBool true, emitted)
  end.

End WithGenerator.
End Cooperative.

(** What [eventList[event]] gives: a callback some registration put there,
    or else whatever the prototype chain has under that name, be it nothing
    ([undefined]), an inherited property (a plain object inherits toString,
    constructor and the like) or the TypeError of an inherited getter; none of
    it is a registered callback.  Under the name __proto__ the getter of
    Object.prototype returns the prototype. *)
Inductive Looked :=
| Registered (callback : Callback)
| NotRegistered.

(** Modelled from the spec: eventManager.js is not part of src/.  The
    constructor hands it the very object [this.eventList] that [on] later
    writes into, so the handler it invokes for an event is whatever that
    object holds under the event's name at that moment (section 4.7). *)
Module EventManager.
Definition handler (event : string) (w : World) : Looked :=
  match own (eventList w) !! event with
  | Some callback => Registered callback
  | None =>
    if bool_decide (event = "__proto__") then
      match prototype (eventList w) with
      | Some callback => Registered callback
      | None => NotRegistered
      end
    else NotRegistered
  end.
End EventManager.

(** ** Observing a run *)

Definition result {A} (m : M A) (w : World) : Outcome A := fst (m w).

Definition final {A} (m : M A) (w : World) : World := snd (m w).

(** The collaborator calls a run adds to the trace, in program order. *)
Definition effects {A} (m : M A) (w : World) : list Effect :=
  drop (length (trace w)) (trace (final m w)).

(** [w] after the calls [es], none of which wrote anything. *)
Definition logged (w : World) (es : list Effect) : World :=
  mkWorld (channels w) (bets w) (socket w) (eventList w) (trace w ++ es).

Definition persists (e : Effect) : bool :=
  match e with
  | DbAddBet _ | DbUpdateChannel _ _ => true
  | _ => false
  end.

Definition emits (e : Effect) : bool :=
  match e with
  | SocketEmit _ _ => true
  | _ => false
  end.

Definition submits (e : Effect) : bool :=
  match e with
  | ChainSend _ => true
  | _ => false
  end.

Definition reads_store (e : Effect) : bool :=
  match e with
  | DbGetChannel _ | DbGetChannels | DbGetBetByChannel _ _ | DbGetBet _ => true
  | _ => false
  end.

(** JavaScript's falsy values among those the methods return. *)
Definition falsy (v : Value) : bool :=
  match v with
  | VUndefined | VBool false => true
  | _ => false
  end.

(** What section 7 of the spec calls a tagged variant: a rejection whose
    error carries the variant's name. *)
Definition tagged_rejection (kind : string) (o : Outcome Value) : Prop :=
  exists message, o = Throw (JsError kind message).

(** Registering a list of (event, callback) pairs, first to last. *)
Fixpoint register_all (regs : list (string * Callback)) : M unit :=
  match regs with
  | [] => ret tt
  | (event, callback) :: rest =>
      SCClient.on event callback ;; register_all rest
  end.


(** ** A concrete client, for the worked examples *)

Module Scenario.

Definition alice : Address := "0xA11CE".
Definition bob : Address := "0xB0B".
Definition chan : ChannelId := "0xC0FFEE".

(** Every transaction is mined; its hash names the call. *)
Definition mined (c : ChainCall) : ChainReply :=
  TxHash
    match c with
    | TxOpenChannel _ _ _ _ => "0xtx-open"
    | TxDeposit _ _ _ => "0xtx-deposit"
    | TxCloseChannel _ _ _ _ => "0xtx-close"
    | TxSettle _ => "0xtx-settle"
    | TxUnlock _ _ _ => "0xtx-unlock"
    | TxInitiatorSettle _ _ => "0xtx-initiator-settle"
    end.

(** Amounts are held as decimal strings, for which [parseInt] gives the
    double nearest to the integer (beyond twenty digits an engine may
    approximate; the examples stay below). *)
Definition env : Env :=
  mkEnv alice
    (fun seed => String.append "random:" seed)
    (fun x => String.append "sha3:" x)
    (fun betMask modulo betValue => betValue)
    (fun id round betMask modulo positiveA negativeB hashRa =>
       BetRequest.mk id round betMask modulo positiveA negativeB hashRa
         "0xGAME" "sigA" None)
    (fun _ c => Return (mkCloseData "0xbalance" 3 "sigB"))
    (fun _ c l r => Return (mkSettleData alice 0 0 l bob 0 0 r))
    (fun partner => chan)
    mined
    JsNumber.of_Z.

Definition channel (status : ChannelStatus) (currentRound : option Z)
  : Channel.t :=
  Channel.mk chan bob status 1000 1000 currentRound "0xlocal" "0xremote".

Definition bet (status : BetStatus) : Bet.t :=
  Bet.mk 1 "0xGAME" chan 1 63 6 100 100 alice "sha3:random:seedA"
    (Some "random:seedA") "sigA" bob (Some "random:seedB") (Some "sigB")
    status.

Definition world (cs : list Channel.t) (bs : list Bet.t) : World :=
  mkWorld (list_to_map (map (fun c => (Channel.channelId c, c)) cs)) bs
          true ∅ [].

End Scenario.

(** ** The vocabulary of the statements *)

Section StartBetTerms.
Variable env : Env.
Variables (channelIdentifier : ChannelId) (partnerAddress : Address).
Variables (betMask modulo betValue : Z) (randomSeed : string).

Definition winAmount : Z := getPossibleWinAmount env betMask modulo betValue.

Definition ra : Hash := generateRandomFromSeed2 env randomSeed.

Definition message (round : Z) : BetRequest.t :=
  BetRequest.set_value betValue
    (generateBetRequest env channelIdentifier round betMask modulo (from env)
       partnerAddress (soliditySha3 env ra)).

Definition new_bet (round : Z) : Bet.t :=
  Bet.mk 0 (BetRequest.gameContractAddress (message round)) channelIdentifier
    round betMask modulo betValue winAmount (from env) (soliditySha3 env ra)
    (Some ra) (BetRequest.signatureA (message round))
    (BetRequest.negativeB (message round)) None None BET_INIT.

Definition last_bet (w : World) (c : Channel.t) : option Bet.t :=
  find (dbhelper.bet_matches channelIdentifier (Channel.currentRound c))
       (bets w).

(** The world after the accepted path's two writes and its calls. *)
Definition started (w : World) (c : Channel.t) (emitted : list Effect) : World :=
  let round := SCClient.next_round (Channel.currentRound c) in
  mkWorld
    (alter (Channel.set_currentRound round) channelIdentifier (channels w))
    (bets w ++ [Bet.set_betId (S (length (bets w))) (new_bet round)])
    (socket w) (eventList w)
    (trace w ++ [DbGetChannel channelIdentifier;
                 DbGetBetByChannel channelIdentifier (Channel.currentRound c);
                 LogInfo "new Round is ";
                 LogInfo "betRequestMessage";
                 DbAddBet (new_bet round);
                 DbUpdateChannel channelIdentifier round] ++ emitted).

End StartBetTerms.

(** Every run of startBet follows one of six paths. *)
Inductive StartBetPath (env : Env) (id : ChannelId) (partner : Address)
    (mask modulo value : Z) (seed : string) (w : World)
  : Outcome Value -> World -> Prop :=
| path_unknown :
    channels w !! id = None ->
    StartBetPath env id partner mask modulo value seed w (Return VUndefined)
      (logged w [DbGetChannel id; LogError "channel not exist in db"])
| path_not_opened c :
    channels w !! id = Some c ->
    Channel.status c <> CHANNEL_OPENED ->
    StartBetPath env id partner mask modulo value seed w (Return VUndefined)
      (logged w [DbGetChannel id; LogError "channel not exist in db"])
| path_unfinished c :
    channels w !! id = Some c ->
    Channel.status c = CHANNEL_OPENED ->
    SCClient.unfinished (last_bet id w c) = true ->
    StartBetPath env id partner mask modulo value seed w (Return (VBool false))
      (logged w [DbGetChannel id;
                 DbGetBetByChannel id (Channel.currentRound c);
                 LogInfo "There are unfinished bet, can not start new bet"])
| path_insufficient c :
    channels w !! id = Some c ->
    Channel.status c = CHANNEL_OPENED ->
    SCClient.unfinished (last_bet id w c) = false ->
    SCClient.insufficient env c (winAmount env mask modulo value) value = true ->
    StartBetPath env id partner mask modulo value seed w (Return (VBool false))
      (logged w [DbGetChannel id;
                 DbGetBetByChannel id (Channel.currentRound c);
                 LogInfo "new Round is ";
                 LogInfo "betRequestMessage";
                 LogError "insufficient balance to bet localBalance"])
| path_accepted c :
    channels w !! id = Some c ->
    Channel.status c = CHANNEL_OPENED ->
    SCClient.unfinished (last_bet id w c) = false ->
    SCClient.insufficient env c (winAmount env mask modulo value) value = false ->
    socket w = true ->
    StartBetPath env id partner mask modulo value seed w (Return (VBool true))
      (started env id partner mask modulo value seed w c
         [SocketEmit "BetRequest"
            (message env id partner mask modulo value seed
               (SCClient.next_round (Channel.currentRound c)))])
| path_no_socket c :
    channels w !! id = Some c ->
    Channel.status c = CHANNEL_OPENED ->
    SCClient.unfinished (last_bet id w c) = false ->
    SCClient.insufficient env c (winAmount env mask modulo value) value = false ->
    socket w = false ->
    StartBetPath env id partner mask modulo value seed w
      (Throw (TypeError "Cannot read properties of undefined (reading 'emit')"))
      (started env id partner mask modulo value seed w c []).

(** Among [es], every call satisfying [P] comes before every call
    satisfying [Q]. *)
Definition precedes (P Q : Effect -> bool) (es : list Effect) : Prop :=
  forall i j e e',
    es !! i = Some e -> P e = true ->
    es !! j = Some e' -> Q e' = true ->
    (i < j)%nat.

(** What [return await blockchainProxy.f(...)] resolves or rejects to. *)
Definition reply_outcome (r : ChainReply) : Outcome Value :=
  match r with
  | TxHash h => Return (VTxHash h)
  | Reverted e => Throw e
  end.

(** The channel has a stored row whose status is Closed or
    UpdateBalanceProof. *)
Definition closed_in (w : World) (id : ChannelId) : Prop :=
  exists c, channels w !! id = Some c
            /\ (Channel.status c = CHANNEL_CLOSED
                \/ Channel.status c = CHANNEL_UPDATEBALANCEPROOF).

Section SettleTerms.
Variable env : Env.
Variable partnerAddress : Address.

Definition settle_lookup : list Effect :=
  [ChainGetChannelIdentifier partnerAddress;
   DbGetChannel (getChannelIdentifier env partnerAddress)].

Definition settle_refusal : list Effect :=
  settle_lookup
  ++ [LogError "channel not exist or channel status is not in (Closed, UpdateBalanceProof)"].

End SettleTerms.

Section InitiatorSettleTerms.
Variables (channelIdentifier : ChannelId) (betId : nat).

Definition stored_bet (w : World) : option Bet.t :=
  find (fun b => bool_decide (Bet.betId b = betId)) (bets w).

Definition settle_reads : list Effect :=
  [DbGetChannel channelIdentifier; DbGetBet betId].

End InitiatorSettleTerms.

(** A run that wrote nothing to the store, emitted nothing and submitted no
    transaction. *)
Definition refused {A} (m : M A) (w : World) : Prop :=
  channels (final m w) = channels w
  /\ bets (final m w) = bets w
  /\ Forall (fun e => persists e = false /\ emits e = false
                      /\ submits e = false) (effects m w).

(** The amounts of a call are safe integers, and [parseInt] is exact on
    them. *)
Definition safe_amounts (env : Env) (c : Channel.t) (win value : Z) : Prop :=
  parseInt_exact env
  /\ JsNumber.safe (Channel.localBalance c)
  /\ JsNumber.safe (Channel.remoteBalance c)
  /\ JsNumber.safe win
  /\ JsNumber.safe value.

(** The transaction initiatorSettle builds from the assembled proof: its
    fields, and [parseInt] of its mask. *)
Definition initiator_tx (env : Env) (d : InitiatorSettleData.t) : ChainCall :=
  TxInitiatorSettle d (parseInt env (InitiatorSettleData.betMask d)).


(** A call on the blockchain proxy, be it a read or a transaction. *)
Definition touches_chain (e : Effect) : bool :=
  match e with
  | ChainGetChannelIdentifier _ | ChainSend _ => true
  | _ => false
  end.

(** A channel row with its round forgotten: what startBet never changes. *)
Definition erase_round (c : Channel.t) : Channel.t :=
  Channel.mk (Channel.channelId c) (Channel.partner c) (Channel.status c)
    (Channel.localBalance c) (Channel.remoteBalance c) None
    (Channel.localCloseBalanceHash c) (Channel.remoteCloseBalanceHash c).

(** The transaction closeChannel builds from the close proof. *)
Definition close_tx (partnerAddress : Address) (d : CloseData) : ChainCall :=
  TxCloseChannel partnerAddress (balanceHash d) (nonce d) (signature d).

(** ** Results about the monad and the observers *)

Lemma trace_logged (w : World) (es : list Effect) :
  trace (logged w es) = trace w ++ es.
Proof. reflexivity. Qed.

(** ** JavaScript numbers *)

Lemma nearest_nat_small (n : Z) : 0 <= n <= 2 ^ 53 -> JsNumber.nearest_nat n = n.
Proof.
  intros Hn. destruct (decide (n = 2 ^ 53)) as [->|Hne]; [reflexivity|].
  unfold JsNumber.nearest_nat.
  destruct (decide (n = 0)) as [->|Hz]; [reflexivity|].
  assert (Z.log2 n < 53) by (apply Z.log2_lt_pow2; lia).
  by rewrite (proj2 (Z.leb_le _ _)) by lia.
Qed.

Lemma nearest_nat_pos (n : Z) : 0 < n -> 0 < JsNumber.nearest_nat n.
Proof.
  intros Hn. unfold JsNumber.nearest_nat.
  set (e := Z.log2 n - 52).
  destruct (Z.leb_spec e 0) as [He|He]; [done|].
  rewrite Z.shiftl_mul_pow2 by lia.
  assert (0 < Z.shiftr n e) as Hq.
  { rewrite Z.shiftr_div_pow2 by lia.
    apply Z.div_str_pos. split; [lia|].
    transitivity (2 ^ Z.log2 n).
    - apply Z.pow_le_mono_r; lia.
    - apply Z.log2_spec. lia. }
  apply Z.mul_pos_pos; [|lia].
  destruct (_ || _); lia.
Qed.

Lemma nearest_safe (z : Z) : Z.abs z <= 2 ^ 53 -> JsNumber.nearest z = z.
Proof.
  intros Hz. unfold JsNumber.nearest.
  rewrite nearest_nat_small by lia. lia.
Qed.

Lemma nearest_negative (z : Z) : (JsNumber.nearest z <? 0) = (z <? 0).
Proof.
  unfold JsNumber.nearest.
  destruct (Z.ltb_spec z 0) as [Hz|Hz].
  - pose proof (nearest_nat_pos (Z.abs z)). apply Z.ltb_lt. nia.
  - apply Z.ltb_ge. destruct (decide (z = 0)) as [->|Hne]; [done|].
    pose proof (nearest_nat_pos (Z.abs z)). nia.
Qed.

(** The sign of a difference of two integers survives the rounding. *)
Lemma ltb_zero_sub (a b : Z) :
  JsNumber.ltb_zero (JsNumber.sub (JsNumber.Finite a) (JsNumber.Finite b))
  = (a <? b).
Proof.
  cbn [JsNumber.sub]. unfold JsNumber.of_Z.
  assert ((JsNumber.nearest (a - b) <? 0) = (a <? b)) as Hsign.
  { rewrite nearest_negative.
    destruct (Z.ltb_spec a b); [apply Z.ltb_lt | apply Z.ltb_ge]; lia. }
  by destruct (_ <=? _).
Qed.

(** Unfolding one run down to the collaborator calls. *)
Ltac run :=
  unfold SCClient.startBet, SCClient.closeChannel, SCClient.settleChannel,
    SCClient.initiatorSettle, SCClient.unlockChannel, SCClient.deposit,
    SCClient.getAllChannels, SCClient.getBetById, SCClient.getChannel,
    SCClient.on, SCClient.reject_channel, SCClient.reject_bet,
    dbhelper.getChannel, dbhelper.getChannels, dbhelper.getBetByChannel,
    dbhelper.getBet, dbhelper.addBet, dbhelper.updateChannel,
    blockchainProxy.getChannelIdentifier, blockchainProxy.send,
    socket_emit, logInfo, logError, await, bind, record, ret, throw, logged;
  cbn [fst snd channels bets socket eventList trace].

(** ** The paths through startBet *)

Section StartBet.
Variable env : Env.
Variables (channelIdentifier : ChannelId) (partnerAddress : Address).
Variables (betMask modulo betValue : Z) (randomSeed : string).

Local Abbreviation call :=
  (SCClient.startBet env channelIdentifier partnerAddress betMask modulo
     betValue randomSeed).

Lemma startBet_unknown_channel (w : World) :
  channels w !! channelIdentifier = None ->
  call w = (Return VUndefined,
            logged w [DbGetChannel channelIdentifier;
                      LogError "channel not exist in db"]).
Proof.
  intros Hc. run. rewrite Hc. cbn. rewrite <- app_assoc. reflexivity.
Qed.

Lemma startBet_not_opened (w : World) (c : Channel.t) :
  channels w !! channelIdentifier = Some c ->
  Channel.status c <> CHANNEL_OPENED ->
  call w = (Return VUndefined,
            logged w [DbGetChannel channelIdentifier;
                      LogError "channel not exist in db"]).
Proof.
  intros Hc Hs. run. rewrite Hc.
  rewrite bool_decide_eq_true_2 by done.
  cbn. rewrite <- app_assoc. reflexivity.
Qed.

Lemma startBet_unfinished (w : World) (c : Channel.t) :
  channels w !! channelIdentifier = Some c ->
  Channel.status c = CHANNEL_OPENED ->
  SCClient.unfinished (last_bet channelIdentifier w c) = true ->
  call w = (Return (VBool false),
            logged w [DbGetChannel channelIdentifier;
                      DbGetBetByChannel channelIdentifier
                        (Channel.currentRound c);
                      LogInfo "There are unfinished bet, can not start new bet"]).
Proof.
  intros Hc Hs Hu. unfold last_bet in *. run. rewrite Hc.
  rewrite bool_decide_eq_false_2 by (intros ?; done).
  cbn. rewrite Hu. cbn. rewrite <- !app_assoc. reflexivity.
Qed.

Lemma startBet_insufficient (w : World) (c : Channel.t) :
  channels w !! channelIdentifier = Some c ->
  Channel.status c = CHANNEL_OPENED ->
  SCClient.unfinished (last_bet channelIdentifier w c) = false ->
  SCClient.insufficient env c (winAmount env betMask modulo betValue) betValue = true ->
  call w = (Return (VBool false),
            logged w [DbGetChannel channelIdentifier;
                      DbGetBetByChannel channelIdentifier
                        (Channel.currentRound c);
                      LogInfo "new Round is ";
                      LogInfo "betRequestMessage";
                      LogError "insufficient balance to bet localBalance"]).
Proof.
  intros Hc Hs Hu Hi. unfold last_bet, winAmount in *. run. rewrite Hc.
  rewrite bool_decide_eq_false_2 by (intros ?; done).
  cbn. rewrite Hu. cbn. rewrite Hi. cbn. rewrite <- !app_assoc. reflexivity.
Qed.

Lemma startBet_accepted (w : World) (c : Channel.t) :
  channels w !! channelIdentifier = Some c ->
  Channel.status c = CHANNEL_OPENED ->
  SCClient.unfinished (last_bet channelIdentifier w c) = false ->
  SCClient.insufficient env c (winAmount env betMask modulo betValue) betValue = false ->
  socket w = true ->
  call w = (Return (VBool true),
            started env channelIdentifier partnerAddress betMask modulo
              betValue randomSeed w c
              [SocketEmit "BetRequest"
                 (message env channelIdentifier partnerAddress betMask modulo
                    betValue randomSeed
                    (SCClient.next_round (Channel.currentRound c)))]).
Proof.
  intros Hc Hs Hu Hi Hk. unfold last_bet, winAmount in *. run. rewrite Hc.
  rewrite bool_decide_eq_false_2 by (intros ?; done).
  cbn. rewrite Hu. cbn. rewrite Hi. cbn. rewrite Hk. cbn.
  unfold started. rewrite <- !app_assoc, Hk. reflexivity.
Qed.

(** With [this.socket] still undefined the call rejects, after its writes. *)
Lemma startBet_no_socket (w : World) (c : Channel.t) :
  channels w !! channelIdentifier = Some c ->
  Channel.status c = CHANNEL_OPENED ->
  SCClient.unfinished (last_bet channelIdentifier w c) = false ->
  SCClient.insufficient env c (winAmount env betMask modulo betValue) betValue = false ->
  socket w = false ->
  call w = (Throw (TypeError "Cannot read properties of undefined (reading 'emit')"),
            started env channelIdentifier partnerAddress betMask modulo
              betValue randomSeed w c []).
Proof.
  intros Hc Hs Hu Hi Hk. unfold last_bet, winAmount in *. run. rewrite Hc.
  rewrite bool_decide_eq_false_2 by (intros ?; done).
  cbn. rewrite Hu. cbn. rewrite Hi. cbn. rewrite Hk. cbn.
  unfold started. rewrite <- !app_assoc, Hk. reflexivity.
Qed.

End StartBet.

Lemma startBet_path (env : Env) (id : ChannelId) (partner : Address)
    (mask modulo value : Z) (seed : string) (w : World) :
  StartBetPath env id partner mask modulo value seed w
    (result (SCClient.startBet env id partner mask modulo value seed) w)
    (final (SCClient.startBet env id partner mask modulo value seed) w).
Proof.
  unfold result, final.
  destruct (channels w !! id) as [c|] eqn:Hc.
  - destruct (decide (Channel.status c = CHANNEL_OPENED)) as [Hs|Hs].
    + destruct (SCClient.unfinished (last_bet id w c)) eqn:Hu.
      * rewrite (startBet_unfinished env id partner mask modulo value seed w c)
          by assumption.
        by apply path_unfinished.
      * destruct (SCClient.insufficient env c (winAmount env mask modulo value) value)
          eqn:Hi.
        -- rewrite (startBet_insufficient env id partner mask modulo value seed w c)
             by assumption.
           by apply path_insufficient.
        -- destruct (socket w) eqn:Hk.
           ++ rewrite (startBet_accepted env id partner mask modulo value seed w c)
                by assumption.
              by apply path_accepted.
           ++ rewrite (startBet_no_socket env id partner mask modulo value seed w c)
                by assumption.
              by apply path_no_socket.
    + rewrite (startBet_not_opened env id partner mask modulo value seed w c)
        by assumption.
      by eapply path_not_opened.
  - rewrite (startBet_unknown_channel env id partner mask modulo value seed w)
      by assumption.
    by apply path_unknown.
Qed.

(** A run that resolves to [true] took the accepted path. *)
Lemma startBet_true_inv (env : Env) (id : ChannelId) (partner : Address)
    (mask modulo value : Z) (seed : string) (w w' : World) :
  SCClient.startBet env id partner mask modulo value seed w
    = (Return (VBool true), w') ->
  exists c,
    channels w !! id = Some c
    /\ Channel.status c = CHANNEL_OPENED
    /\ SCClient.unfinished (last_bet id w c) = false
    /\ SCClient.insufficient env c (winAmount env mask modulo value) value = false
    /\ w' = started env id partner mask modulo value seed w c
              [SocketEmit "BetRequest"
                 (message env id partner mask modulo value seed
                    (SCClient.next_round (Channel.currentRound c)))].
Proof.
  intros Hrun.
  pose proof (startBet_path env id partner mask modulo value seed w) as Hp.
  unfold result, final in Hp. rewrite Hrun in Hp. cbn [fst snd] in Hp.
  inversion Hp; subst. eauto 10.
Qed.

(** On safe integers the balance test of startBet is the comparison of the
    integers. *)
Lemma insufficient_safe (env : Env) (c : Channel.t) (win value : Z) :
  parseInt_exact env ->
  JsNumber.safe (Channel.remoteBalance c) -> JsNumber.safe win ->
  JsNumber.safe (Channel.localBalance c) -> JsNumber.safe value ->
  SCClient.insufficient env c win value
  = (Channel.remoteBalance c <? win) || (Channel.localBalance c <? value).
Proof.
  intros Hp Hr Hw Hl Hv. unfold SCClient.insufficient.
  by rewrite !Hp, !ltb_zero_sub.
Qed.

Lemma unfinished_iff (lastBet : option Bet.t) :
  SCClient.unfinished lastBet = true
  <-> exists b, lastBet = Some b /\ Bet.status b <> BET_FINISH.
Proof.
  unfold SCClient.unfinished. destruct lastBet as [b|].
  - rewrite bool_decide_eq_true. split; [eauto | by intros (? & [= <-] & ?)].
  - split; [done | by intros (? & ? & _)].
Qed.

(** ** startBet: rejection (C1) *)

(** C1 (what the code does): on a channel that is stored but not Opened, the
    first guard leaves through a bare [return;]: with an unfinished
    current-round bet on a Closed channel, startBet resolves to [undefined],
    not to the [false] that its documentation and the two later guards
    give. *)
Lemma startBet_closed_channel_undefined :
  let w := Scenario.world [Scenario.channel CHANNEL_CLOSED (Some 1)]
                          [Scenario.bet BET_START] in
  channels w !! Scenario.chan = Some (Scenario.channel CHANNEL_CLOSED (Some 1))
  /\ last_bet Scenario.chan w (Scenario.channel CHANNEL_CLOSED (Some 1))
     = Some (Scenario.bet BET_START)
  /\ Bet.status (Scenario.bet BET_START) <> BET_FINISH
  /\ result (SCClient.startBet Scenario.env Scenario.chan Scenario.bob 63 6 100
               "seedA") w = Return VUndefined
  /\ result (SCClient.startBet Scenario.env Scenario.chan Scenario.bob 63 6 100
               "seedA") w <> Return (VBool false).
Proof.
  cbv zeta. split; [by vm_compute|]. split; [by vm_compute|].
  split; [done|].
  assert (result (SCClient.startBet Scenario.env Scenario.chan Scenario.bob
                    63 6 100 "seedA")
            (Scenario.world [Scenario.channel CHANNEL_CLOSED (Some 1)]
                            [Scenario.bet BET_START])
          = Return VUndefined) as -> by (by vm_compute).
  split; [reflexivity | discriminate].
Qed.

(** The balance test is made on the doubles [parseInt] returns: with amounts
    held as decimal strings, a stake of 2^53 + 1 against a local balance of
    2^53 passes it. *)
Example startBet_rounded_stake_accepted :
  let c := Channel.mk Scenario.chan Scenario.bob CHANNEL_OPENED
             9007199254740992 9007199254740993 None "0xlocal" "0xremote" in
  result (SCClient.startBet Scenario.env Scenario.chan Scenario.bob 63 6
            9007199254740993 "seedA") (Scenario.world [c] [])
  = Return (VBool true).
Proof. by vm_compute. Qed.

(** X16: on a stored channel whose current-round bet is not Finish, or
    whose local balance is below the stake or remote balance below the win
    amount (the amounts being safe integers), startBet adds no Bet row, leaves
    every channel row (so current_round) as it was, and makes no write to the
    store and no emit on the socket; when the channel is Opened it resolves to
    [false]. *)
Theorem startBet_rejects (env : Env) (id : ChannelId) (partner : Address)
    (mask modulo value : Z) (seed : string) (w : World) (c : Channel.t) :
  channels w !! id = Some c ->
  (exists b, last_bet id w c = Some b /\ Bet.status b <> BET_FINISH)
  \/ (safe_amounts env c (getPossibleWinAmount env mask modulo value) value
      /\ (Channel.localBalance c < value
          \/ Channel.remoteBalance c
             < getPossibleWinAmount env mask modulo value)) ->
  let m := SCClient.startBet env id partner mask modulo value seed in
  (Channel.status c = CHANNEL_OPENED -> result m w = Return (VBool false))
  /\ bets (final m w) = bets w
  /\ channels (final m w) = channels w
  /\ Forall (fun e => persists e = false /\ emits e = false) (effects m w).
Proof.
  intros Hc Hbad m.
  assert (SCClient.unfinished (last_bet id w c) = true
          \/ SCClient.insufficient env c (winAmount env mask modulo value) value
             = true) as Hbad'.
  { destruct Hbad as [Hb|[(Hp & Hl & Hr & Hw & Hv) Hb]];
      [left; by apply unfinished_iff|].
    right. unfold winAmount. rewrite insufficient_safe by done.
    apply orb_true_iff. rewrite !Z.ltb_lt. lia. }
  pose proof (startBet_path env id partner mask modulo value seed w) as Hp.
  unfold effects. fold m in Hp.
  remember (result m w) as out eqn:Hout.
  remember (final m w) as w' eqn:Hw'.
  destruct Hp as [Hn|c' Hc' Hs|c' Hc' Hs Hu|c' Hc' Hs Hu Hi
                 |c' Hc' Hs Hu Hi Hk|c' Hc' Hs Hu Hi Hk];
    try (rewrite Hc in Hc'; injection Hc' as <-); try congruence;
    try (destruct Hbad'; congruence);
    (split; [try done|]); (split; [done|]); (split; [done|]);
    rewrite trace_logged, drop_app_length; by repeat constructor.
Qed.

Lemma startBet_rejects_witness :
  let w := Scenario.world [Scenario.channel CHANNEL_OPENED (Some 1)]
                          [Scenario.bet BET_START] in
  let m := SCClient.startBet Scenario.env Scenario.chan Scenario.bob 63 6 100
             "seedA" in
  (Channel.status (Scenario.channel CHANNEL_OPENED (Some 1)) = CHANNEL_OPENED ->
   result m w = Return (VBool false))
  /\ bets (final m w) = bets w
  /\ channels (final m w) = channels w
  /\ Forall (fun e => persists e = false /\ emits e = false) (effects m w).
Proof.
  apply (startBet_rejects Scenario.env Scenario.chan Scenario.bob 63 6 100
           "seedA" _ (Scenario.channel CHANNEL_OPENED (Some 1))).
  - vm_compute. reflexivity.
  - left. exists (Scenario.bet BET_START). split.
    + vm_compute. reflexivity.
    + simpl. discriminate.
Defined.

(** ** startBet: the accepted path (C2, C3) *)

(** C2, as stated, fails from 2^53 on: the sum [currentRound + 1] is a sum
    of doubles, and 2^53 + 1 is 2^53 again.  A startBet on a channel whose
    round is 2^53 resolves to [true] and leaves the round at 2^53. *)
Lemma startBet_round_stuck_at_2_53 :
  let c := Scenario.channel CHANNEL_OPENED (Some 9007199254740992) in
  let w := Scenario.world [c] [] in
  let m := SCClient.startBet Scenario.env Scenario.chan Scenario.bob 63 6 100
             "seedA" in
  channels w !! Scenario.chan = Some c
  /\ Channel.currentRound c = Some (2 ^ 53)
  /\ result m w = Return (VBool true)
  /\ Channel.currentRound <$> channels (final m w) !! Scenario.chan
     = Some (Some (2 ^ 53))
  /\ Channel.currentRound <$> channels (final m w) !! Scenario.chan
     <> Some (Some (2 ^ 53 + 1)).
Proof.
  cbv zeta. split; [by vm_compute|]. split; [by vm_compute|].
  split; [by vm_compute|].
  assert (Channel.currentRound
            <$> channels
                  (final (SCClient.startBet Scenario.env Scenario.chan
                            Scenario.bob 63 6 100 "seedA")
                     (Scenario.world
                        [Scenario.channel CHANNEL_OPENED (Some 9007199254740992)]
                        []))
                !! Scenario.chan
          = Some (Some 9007199254740992)) as -> by (by vm_compute).
  split; [reflexivity | discriminate].
Qed.

(** C2 (amended): a startBet call that resolves to [true] sets the channel's
    current_round to one more than it was when that was a round below 2^53
    (and to 1 when it was still null), by a single update of the channel row,
    and the one Bet row it adds carries the new round. *)
Theorem startBet_increments_round (env : Env) (id : ChannelId)
    (partner : Address) (mask modulo value : Z) (seed : string)
    (w w' : World) :
  SCClient.startBet env id partner mask modulo value seed w
    = (Return (VBool true), w') ->
  exists c c' b,
    channels w !! id = Some c
    /\ channels w' !! id = Some c'
    /\ (forall r, Channel.currentRound c = Some r -> 0 <= r < 2 ^ 53 ->
        Channel.currentRound c' = Some (r + 1))
    /\ (Channel.currentRound c = None -> Channel.currentRound c' = Some 1)
    /\ bets w' = bets w ++ [b]
    /\ Some (Bet.round b) = Channel.currentRound c'
    /\ filter (fun e => persists e = true)
         (drop (length (trace w)) (trace w'))
       = [DbAddBet (Bet.set_betId 0 b); DbUpdateChannel id (Bet.round b)].
Proof.
  intros Hrun.
  destruct (startBet_true_inv _ _ _ _ _ _ _ _ _ Hrun)
    as (c & Hc & Hs & Hu & Hi & ->).
  exists c, (Channel.set_currentRound
               (SCClient.next_round (Channel.currentRound c)) c).
  eexists. unfold started. cbn [channels bets trace].
  split; [done|]. split; [by rewrite lookup_alter_eq, Hc|].
  split.
  { intros r -> Hr. cbn. by rewrite nearest_safe by lia. }
  split; [by intros ->|].
  split; [reflexivity|]. split; [reflexivity|].
  by rewrite drop_app_length.
Qed.

Lemma startBet_increments_round_witness :
  exists c c' b,
    channels (Scenario.world [Scenario.channel CHANNEL_OPENED (Some 1)]
                             [Scenario.bet BET_FINISH])
      !! Scenario.chan = Some c
    /\ channels
         (final (SCClient.startBet Scenario.env Scenario.chan Scenario.bob
                   63 6 100 "seedA")
            (Scenario.world [Scenario.channel CHANNEL_OPENED (Some 1)]
                            [Scenario.bet BET_FINISH]))
       !! Scenario.chan = Some c'
    /\ (forall r, Channel.currentRound c = Some r -> 0 <= r < 2 ^ 53 ->
        Channel.currentRound c' = Some (r + 1))
    /\ (Channel.currentRound c = None -> Channel.currentRound c' = Some 1)
    /\ bets
         (final (SCClient.startBet Scenario.env Scenario.chan Scenario.bob
                   63 6 100 "seedA")
            (Scenario.world [Scenario.channel CHANNEL_OPENED (Some 1)]
                            [Scenario.bet BET_FINISH]))
       = bets (Scenario.world [Scenario.channel CHANNEL_OPENED (Some 1)]
                              [Scenario.bet BET_FINISH]) ++ [b]
    /\ Some (Bet.round b) = Channel.currentRound c'
    /\ filter (fun e => persists e = true)
         (drop
            (length
               (trace (Scenario.world [Scenario.channel CHANNEL_OPENED (Some 1)]
                                      [Scenario.bet BET_FINISH])))
            (trace
               (final (SCClient.startBet Scenario.env Scenario.chan
                         Scenario.bob 63 6 100 "seedA")
                  (Scenario.world [Scenario.channel CHANNEL_OPENED (Some 1)]
                                  [Scenario.bet BET_FINISH]))))
       = [DbAddBet (Bet.set_betId 0 b); DbUpdateChannel Scenario.chan (Bet.round b)].
Proof.
  apply (startBet_increments_round Scenario.env Scenario.chan Scenario.bob
           63 6 100 "seedA").
  vm_compute. reflexivity.
Defined.

(** C3: in a startBet call that resolves to [true], the Bet row is added and
    the channel's round is updated before the BetRequest is emitted: both
    writes are in the store, and the emit is the last call of the run, after
    every write. *)
Theorem startBet_persists_before_emit (env : Env) (id : ChannelId)
    (partner : Address) (mask modulo value : Z) (seed : string)
    (w w' : World) :
  SCClient.startBet env id partner mask modulo value seed w
    = (Return (VBool true), w') ->
  exists before_writes b round request,
    drop (length (trace w)) (trace w')
      = before_writes
        ++ [DbAddBet b; DbUpdateChannel id round;
            SocketEmit "BetRequest" request]
    /\ Forall (fun e => persists e = false /\ emits e = false) before_writes
    /\ precedes persists emits (drop (length (trace w)) (trace w'))
    /\ request
       = BetRequest.set_value value
           (generateBetRequest env id round mask modulo (from env) partner
              (Bet.hashRa b))
    /\ Bet.round b = round
    /\ bets w' = bets w ++ [Bet.set_betId (S (length (bets w))) b]
    /\ Channel.currentRound <$> (channels w' !! id) = Some (Some round).
Proof.
  intros Hrun.
  destruct (startBet_true_inv _ _ _ _ _ _ _ _ _ Hrun)
    as (c & Hc & Hs & Hu & Hi & ->).
  unfold started. cbn [channels bets trace]. rewrite drop_app_length.
  exists [DbGetChannel id; DbGetBetByChannel id (Channel.currentRound c);
          LogInfo "new Round is "; LogInfo "betRequestMessage"].
  do 3 eexists. split; [reflexivity|].
  split; [by repeat constructor|].
  split.
  - intros i j e e' Hi' Pe Hj Qe'.
    do 7 (destruct i as [|i]; [do 7 (destruct j as [|j]; simplify_eq/=; try lia)|]);
      simplify_eq/=.
  - split; [reflexivity|]. split; [reflexivity|]. split; [reflexivity|].
    by rewrite lookup_alter_eq, Hc.
Qed.

Lemma startBet_persists_before_emit_witness :
  exists before_writes b round request,
    drop (length (trace (Scenario.world
                           [Scenario.channel CHANNEL_OPENED None] [])))
         (trace (final (SCClient.startBet Scenario.env Scenario.chan
                          Scenario.bob 63 6 100 "seedA")
                   (Scenario.world [Scenario.channel CHANNEL_OPENED None] [])))
      = before_writes
        ++ [DbAddBet b; DbUpdateChannel Scenario.chan round;
            SocketEmit "BetRequest" request]
    /\ round = 1
    /\ Bet.status b = BET_INIT.
Proof.
  destruct (startBet_persists_before_emit Scenario.env Scenario.chan
              Scenario.bob 63 6 100 "seedA"
              (Scenario.world [Scenario.channel CHANNEL_OPENED None] [])
              (final (SCClient.startBet Scenario.env Scenario.chan
                        Scenario.bob 63 6 100 "seedA")
                 (Scenario.world [Scenario.channel CHANNEL_OPENED None] [])))
    as (pre & b & round & request & Htrace & _ & _ & _ & Hb & Hbets & Hround).
  - vm_compute. reflexivity.
  - exists pre, b, round, request. split; [exact Htrace|].
    split.
    + vm_compute in Hround. congruence.
    + vm_compute in Hbets. destruct b. simpl in *. congruence.
Defined.

(** Case analysis on membership in a list that is written out. *)
Ltac elem_cases H :=
  cbn [app] in H;
  repeat (apply elem_of_cons in H as [H|H]; [try discriminate H|]);
  try (by apply elem_of_nil in H).

(** ** The paths through settleChannel *)

Lemma not_closed_false (c : Channel.t) :
  SCClient.not_closed c = false
  <-> Channel.status c = CHANNEL_CLOSED
      \/ Channel.status c = CHANNEL_UPDATEBALANCEPROOF.
Proof.
  unfold SCClient.not_closed. destruct (Channel.status c); simpl; split;
    intros H; try done; try (destruct H; done); auto.
Qed.

Lemma closed_in_dec (w : World) (id : ChannelId) :
  closed_in w id
  \/ (channels w !! id = None
      \/ exists c, channels w !! id = Some c /\ SCClient.not_closed c = true).
Proof.
  unfold closed_in. destruct (channels w !! id) as [c|] eqn:Hc; [|by auto].
  destruct (SCClient.not_closed c) eqn:Hn; [by eauto|].
  left. exists c. split; [done|]. by apply not_closed_false.
Qed.

Section Settle.
Variable env : Env.
Variable partnerAddress : Address.

Lemma settleChannel_unknown (w : World) :
  channels w !! getChannelIdentifier env partnerAddress = None ->
  SCClient.settleChannel env partnerAddress w
  = (Return (VBool false), logged w (settle_refusal env partnerAddress)).
Proof.
  intros Hc. run. rewrite Hc. cbn. rewrite <- !app_assoc. reflexivity.
Qed.

Lemma settleChannel_wrong_status (w : World) (c : Channel.t) :
  channels w !! getChannelIdentifier env partnerAddress = Some c ->
  SCClient.not_closed c = true ->
  SCClient.settleChannel env partnerAddress w
  = (Return (VBool false), logged w (settle_refusal env partnerAddress)).
Proof.
  intros Hc Hn. run. rewrite Hc. cbn. rewrite Hn. cbn.
  rewrite <- !app_assoc. reflexivity.
Qed.

Lemma settleChannel_assembly_fails (w : World) (c : Channel.t) (e : Thrown) :
  channels w !! getChannelIdentifier env partnerAddress = Some c ->
  SCClient.not_closed c = false ->
  getSettleData env (logged w (settle_lookup env partnerAddress)) c
    (Channel.localCloseBalanceHash c) (Channel.remoteCloseBalanceHash c)
    = Throw e ->
  SCClient.settleChannel env partnerAddress w
  = (Throw e, logged w (settle_lookup env partnerAddress)).
Proof.
  intros Hc Hn Hd. unfold settle_lookup, logged in *. run.
  rewrite Hc. cbn. rewrite Hn. cbn. rewrite <- !app_assoc. cbn.
  rewrite Hd. reflexivity.
Qed.

Lemma settleChannel_submits (w : World) (c : Channel.t) (d : SettleData) :
  channels w !! getChannelIdentifier env partnerAddress = Some c ->
  SCClient.not_closed c = false ->
  getSettleData env (logged w (settle_lookup env partnerAddress)) c
    (Channel.localCloseBalanceHash c) (Channel.remoteCloseBalanceHash c)
    = Return d ->
  SCClient.settleChannel env partnerAddress w
  = (reply_outcome (chain env (TxSettle d)),
     logged w (settle_lookup env partnerAddress ++ [ChainSend (TxSettle d)])).
Proof.
  intros Hc Hn Hd. unfold settle_lookup, logged in *. run.
  rewrite Hc. cbn. rewrite Hn. cbn. rewrite <- !app_assoc. cbn.
  rewrite Hd. cbn. destruct (chain env (TxSettle d)); cbn;
    rewrite <- !app_assoc; reflexivity.
Qed.

End Settle.

(** ** settleChannel (C8) *)

(** C8, as stated, fails on the words "without making any on-chain call":
    settleChannel asks the blockchain proxy for the channel identifier before
    it tests anything, so a refused call has made a call on the chain too, a
    read. *)
Lemma settleChannel_refusal_reads_chain :
  let m := SCClient.settleChannel Scenario.env Scenario.bob in
  let w := Scenario.world [] [] in
  channels w !! getChannelIdentifier Scenario.env Scenario.bob = None
  /\ result m w = Return (VBool false)
  /\ effects m w
     = [ChainGetChannelIdentifier Scenario.bob; DbGetChannel Scenario.chan;
        LogError "channel not exist or channel status is not in (Closed, UpdateBalanceProof)"]
  /\ Exists (fun e => touches_chain e = true) (effects m w).
Proof.
  cbv zeta. split; [by vm_compute|]. split; [by vm_compute|].
  assert (effects (SCClient.settleChannel Scenario.env Scenario.bob)
                  (Scenario.world [] [])
          = [ChainGetChannelIdentifier Scenario.bob; DbGetChannel Scenario.chan;
             LogError "channel not exist or channel status is not in (Closed, UpdateBalanceProof)"])
    as -> by (by vm_compute).
  split; [reflexivity|]. by apply Exists_cons_hd.
Qed.

(** C8 (amended): settleChannel submits a transaction only when the channel
    has a stored row whose status is Closed or UpdateBalanceProof, and the
    transaction is then the settle of the assembled proof; in every other case
    it resolves to [false] and submits no transaction: its only calls are the
    read of the channel identifier on the blockchain proxy, the store lookup
    and the error log.  When the row is there and the proof is assembled, the
    settle is submitted and the call resolves or rejects as the chain does. *)
Theorem settleChannel_only_when_closed (env : Env) (partnerAddress : Address)
    (w : World) :
  let id := getChannelIdentifier env partnerAddress in
  let m := SCClient.settleChannel env partnerAddress in
  (forall tx, ChainSend tx ∈ effects m w ->
     closed_in w id
     /\ exists c d,
          channels w !! id = Some c
          /\ getSettleData env (logged w (settle_lookup env partnerAddress)) c
               (Channel.localCloseBalanceHash c)
               (Channel.remoteCloseBalanceHash c) = Return d
          /\ tx = TxSettle d)
  /\ (~ closed_in w id ->
      result m w = Return (VBool false)
      /\ final m w = logged w (settle_refusal env partnerAddress)
      /\ Forall (fun e => submits e = false) (effects m w))
  /\ (forall c d,
        channels w !! id = Some c ->
        Channel.status c = CHANNEL_CLOSED
        \/ Channel.status c = CHANNEL_UPDATEBALANCEPROOF ->
        getSettleData env (logged w (settle_lookup env partnerAddress)) c
          (Channel.localCloseBalanceHash c) (Channel.remoteCloseBalanceHash c)
          = Return d ->
        effects m w = settle_lookup env partnerAddress ++ [ChainSend (TxSettle d)]
        /\ result m w = reply_outcome (chain env (TxSettle d))).
Proof.
  intros id m. unfold effects, result, final. subst m.
  assert (forall es, drop (length (trace w)) (trace (logged w es)) = es) as Hdrop.
  { intros es. rewrite trace_logged. apply drop_app_length. }
  split; [|split].
  - intros tx.
    destruct (closed_in_dec w id) as [(c & Hc & Hs)|[Hc|(c & Hc & Hn)]].
    + apply not_closed_false in Hs as Hn.
      destruct (getSettleData env (logged w (settle_lookup env partnerAddress)) c
                  (Channel.localCloseBalanceHash c)
                  (Channel.remoteCloseBalanceHash c)) as [d|e] eqn:Hd.
      * rewrite (settleChannel_submits env partnerAddress w c d) by done.
        cbn [snd]. rewrite Hdrop. unfold settle_lookup.
        intros Hin. split; [by exists c|]. exists c, d.
        split; [done|]. split; [done|]. elem_cases Hin. congruence.
      * rewrite (settleChannel_assembly_fails env partnerAddress w c e) by done.
        cbn [snd]. rewrite Hdrop. unfold settle_lookup.
        intros Hin. elem_cases Hin.
    + rewrite (settleChannel_unknown env partnerAddress w) by done.
      cbn [snd]. rewrite Hdrop. unfold settle_refusal, settle_lookup.
      intros Hin. elem_cases Hin.
    + rewrite (settleChannel_wrong_status env partnerAddress w c) by done.
      cbn [snd]. rewrite Hdrop. unfold settle_refusal, settle_lookup.
      intros Hin. elem_cases Hin.
  - intros Hnot.
    destruct (closed_in_dec w id) as [Hyes|[Hc|(c & Hc & Hn)]]; [done| |].
    + rewrite (settleChannel_unknown env partnerAddress w) by done.
      cbn [fst snd]. rewrite Hdrop. do 2 (split; [done|]).
      by repeat constructor.
    + rewrite (settleChannel_wrong_status env partnerAddress w c) by done.
      cbn [fst snd]. rewrite Hdrop. do 2 (split; [done|]).
      by repeat constructor.
  - intros c d Hc Hs Hd. apply not_closed_false in Hs.
    rewrite (settleChannel_submits env partnerAddress w c d) by done.
    cbn [fst snd]. by rewrite Hdrop.
Qed.

(** ** initiatorSettle (C5) *)

Section InitiatorSettle.
Variable env : Env.
Variables (channelIdentifier : ChannelId) (betId : nat).

Lemma initiatorSettle_unknown_channel (w : World) :
  channels w !! channelIdentifier = None ->
  SCClient.initiatorSettle env channelIdentifier betId w
  = (Return (VBool false),
     logged w (settle_reads channelIdentifier betId ++
               [LogError "channel not exist or channel status is not in (Closed, UpdateBalanceProof)"])).
Proof.
  intros Hc. run. rewrite Hc. cbn. rewrite <- !app_assoc. reflexivity.
Qed.

Lemma initiatorSettle_wrong_channel_status (w : World) (c : Channel.t) :
  channels w !! channelIdentifier = Some c ->
  SCClient.not_closed c = true ->
  SCClient.initiatorSettle env channelIdentifier betId w
  = (Return (VBool false),
     logged w (settle_reads channelIdentifier betId ++
               [LogError "channel not exist or channel status is not in (Closed, UpdateBalanceProof)"])).
Proof.
  intros Hc Hn. run. rewrite Hc. cbn. rewrite Hn. cbn.
  rewrite <- !app_assoc. reflexivity.
Qed.

Lemma initiatorSettle_unknown_bet (w : World) (c : Channel.t) :
  channels w !! channelIdentifier = Some c ->
  SCClient.not_closed c = false ->
  stored_bet betId w = None ->
  SCClient.initiatorSettle env channelIdentifier betId w
  = (Return (VBool false),
     logged w (settle_reads channelIdentifier betId ++
               [LogError "bet not exist or bet status is not correct"])).
Proof.
  unfold stored_bet. intros Hc Hn Hb. run. rewrite Hc, Hb. cbn.
  rewrite Hn. cbn. rewrite <- !app_assoc. reflexivity.
Qed.

Lemma initiatorSettle_wrong_bet_status (w : World) (c : Channel.t) (b : Bet.t) :
  channels w !! channelIdentifier = Some c ->
  SCClient.not_closed c = false ->
  stored_bet betId w = Some b ->
  SCClient.bet_status_wrong b = true ->
  SCClient.initiatorSettle env channelIdentifier betId w
  = (Return (VBool false),
     logged w (settle_reads channelIdentifier betId ++
               [LogError "bet not exist or bet status is not correct"])).
Proof.
  unfold stored_bet. intros Hc Hn Hb Hw. run. rewrite Hc, Hb. cbn.
  rewrite Hn. cbn. rewrite Hw. cbn. rewrite <- !app_assoc. reflexivity.
Qed.

Lemma initiatorSettle_submits (w : World) (c : Channel.t) (b : Bet.t)
    (d : InitiatorSettleData.t) :
  channels w !! channelIdentifier = Some c ->
  SCClient.not_closed c = false ->
  stored_bet betId w = Some b ->
  SCClient.bet_status_wrong b = false ->
  getInitiatorSettleData c b = Return d ->
  SCClient.initiatorSettle env channelIdentifier betId w
  = (reply_outcome (chain env (initiator_tx env d)),
     logged w (settle_reads channelIdentifier betId ++ [ChainSend (initiator_tx env d)])).
Proof.
  unfold stored_bet, initiator_tx. intros Hc Hn Hb Hw Hd. run.
  rewrite Hc, Hb. cbn.
  rewrite Hn. cbn. rewrite Hw. cbn. rewrite Hd. cbn.
  destruct (chain env _); cbn; rewrite <- !app_assoc; reflexivity.
Qed.

End InitiatorSettle.

(** C5, as stated, fails on a bet that has reached Finish: its status is at
    least Start and Ra is known, the channel is Closed, and yet initiatorSettle
    resolves to [false] and submits nothing. *)
Lemma initiatorSettle_refuses_finished_bet :
  let w := Scenario.world [Scenario.channel CHANNEL_CLOSED (Some 1)]
                          [Scenario.bet BET_FINISH] in
  let m := SCClient.initiatorSettle Scenario.env Scenario.chan 1 in
  channels w !! Scenario.chan = Some (Scenario.channel CHANNEL_CLOSED (Some 1))
  /\ stored_bet 1 w = Some (Scenario.bet BET_FINISH)
  /\ bet_status_code BET_START
     <= bet_status_code (Bet.status (Scenario.bet BET_FINISH))
  /\ Bet.ra (Scenario.bet BET_FINISH) = Some "random:seedA"
  /\ result m w = Return (VBool false)
  /\ effects m w
     = [DbGetChannel Scenario.chan; DbGetBet 1;
        LogError "bet not exist or bet status is not correct"].
Proof.
  cbv zeta. repeat split; by vm_compute.
Qed.

Lemma bet_status_wrong_false (b : Bet.t) :
  SCClient.bet_status_wrong b = false
  <-> bet_status_code BET_START <= bet_status_code (Bet.status b)
      /\ Bet.status b <> BET_FINISH.
Proof.
  unfold SCClient.bet_status_wrong.
  rewrite orb_false_iff, Z.ltb_ge, bool_decide_eq_false. tauto.
Qed.

(** C5 (amended): for a stored bet whose status is at least Start and is not
    Finish, with Ra known, in a channel whose status is Closed or
    UpdateBalanceProof, initiatorSettle assembles the initiator-settle proof
    of that bet, submits it with the mask passed through [parseInt] (which
    leaves a mask that is a safe integer as it is), and resolves to the
    transaction's hash when the chain accepts it (it rejects with the chain's
    error otherwise); the store is left as it was. *)
Theorem initiatorSettle_submits_proof (env : Env) (id : ChannelId)
    (betId : nat) (w : World) (c : Channel.t) (b : Bet.t) (ra : Hash) :
  channels w !! id = Some c ->
  Channel.status c = CHANNEL_CLOSED
  \/ Channel.status c = CHANNEL_UPDATEBALANCEPROOF ->
  stored_bet betId w = Some b ->
  bet_status_code BET_START <= bet_status_code (Bet.status b) ->
  Bet.status b <> BET_FINISH ->
  Bet.ra b = Some ra ->
  let m := SCClient.initiatorSettle env id betId in
  exists d,
    getInitiatorSettleData c b = Return d
    /\ InitiatorSettleData.initiatorR d = ra
    /\ InitiatorSettleData.round d = Bet.round b
    /\ InitiatorSettleData.betMask d = Bet.betMask b
    /\ (parseInt_exact env -> JsNumber.safe (Bet.betMask b) ->
        initiator_tx env d
        = TxInitiatorSettle d (JsNumber.Finite (Bet.betMask b)))
    /\ effects m w
       = [DbGetChannel id; DbGetBet betId; ChainSend (initiator_tx env d)]
    /\ result m w = reply_outcome (chain env (initiator_tx env d))
    /\ (forall h, chain env (initiator_tx env d) = TxHash h ->
        result m w = Return (VTxHash h))
    /\ channels (final m w) = channels w
    /\ bets (final m w) = bets w.
Proof.
  intros Hc Hs Hb Hge Hne Hra m.
  assert (SCClient.not_closed c = false) as Hn by by apply not_closed_false.
  assert (SCClient.bet_status_wrong b = false) as Hw
    by by apply bet_status_wrong_false.
  assert (exists d, getInitiatorSettleData c b = Return d
                    /\ InitiatorSettleData.initiatorR d = ra
                    /\ InitiatorSettleData.round d = Bet.round b
                    /\ InitiatorSettleData.betMask d = Bet.betMask b)
    as (d & Hd & Hr & Hround & Hmask).
  { unfold getInitiatorSettleData. rewrite Hra.
    apply Z.leb_le in Hge. rewrite Hge. eauto. }
  exists d. unfold effects, result, final. subst m.
  rewrite (initiatorSettle_submits env id betId w c b d) by done.
  cbn [fst snd]. rewrite trace_logged, drop_app_length.
  do 4 (split; [done|]).
  split; [intros Hexact Hsafe; unfold initiator_tx; by rewrite Hmask, Hexact|].
  do 2 (split; [done|]).
  split; [by intros h ->|]. done.
Qed.

Lemma initiatorSettle_submits_proof_witness :
  let w := Scenario.world [Scenario.channel CHANNEL_CLOSED (Some 1)]
                          [Scenario.bet BET_LOCKEDTRANSFER_R_SENT] in
  let m := SCClient.initiatorSettle Scenario.env Scenario.chan 1 in
  exists d,
    getInitiatorSettleData (Scenario.channel CHANNEL_CLOSED (Some 1))
      (Scenario.bet BET_LOCKEDTRANSFER_R_SENT) = Return d
    /\ InitiatorSettleData.initiatorR d = "random:seedA"
    /\ InitiatorSettleData.round d
       = Bet.round (Scenario.bet BET_LOCKEDTRANSFER_R_SENT)
    /\ InitiatorSettleData.betMask d
       = Bet.betMask (Scenario.bet BET_LOCKEDTRANSFER_R_SENT)
    /\ (parseInt_exact Scenario.env ->
        JsNumber.safe (Bet.betMask (Scenario.bet BET_LOCKEDTRANSFER_R_SENT)) ->
        initiator_tx Scenario.env d
        = TxInitiatorSettle d
            (JsNumber.Finite
               (Bet.betMask (Scenario.bet BET_LOCKEDTRANSFER_R_SENT))))
    /\ effects m w
       = [DbGetChannel Scenario.chan; DbGetBet 1;
          ChainSend (initiator_tx Scenario.env d)]
    /\ result m w
       = reply_outcome (chain Scenario.env (initiator_tx Scenario.env d))
    /\ (forall h, chain Scenario.env (initiator_tx Scenario.env d) = TxHash h ->
        result m w = Return (VTxHash h))
    /\ channels (final m w) = channels w
    /\ bets (final m w) = bets w.
Proof.
  apply (initiatorSettle_submits_proof Scenario.env Scenario.chan 1
           (Scenario.world [Scenario.channel CHANNEL_CLOSED (Some 1)]
                           [Scenario.bet BET_LOCKEDTRANSFER_R_SENT])
           (Scenario.channel CHANNEL_CLOSED (Some 1))
           (Scenario.bet BET_LOCKEDTRANSFER_R_SENT) "random:seedA").
  - vm_compute. reflexivity.
  - left. reflexivity.
  - vm_compute. reflexivity.
  - simpl. lia.
  - simpl. discriminate.
  - reflexivity.
Defined.

(** ** Operations on a channel with no stored row (C4) *)

Lemma closeChannel_unknown_channel (env : Env) (partnerAddress : Address)
    (w : World) :
  channels w !! getChannelIdentifier env partnerAddress = None ->
  SCClient.closeChannel env partnerAddress w
  = (Throw (TypeError "Cannot read properties of null (reading 'status')"),
     logged w (settle_lookup env partnerAddress)).
Proof.
  intros Hc. unfold settle_lookup. run. rewrite Hc. cbn.
  rewrite <- !app_assoc. reflexivity.
Qed.

Lemma refused_logged {A} (m : M A) (w : World) (o : Outcome A)
    (es : list Effect) :
  m w = (o, logged w es) ->
  Forall (fun e => persists e = false /\ emits e = false /\ submits e = false)
         es ->
  refused m w.
Proof.
  intros Hm Hes. unfold refused, effects, final. rewrite Hm. cbn [snd].
  rewrite trace_logged, drop_app_length. done.
Qed.

(** C4, as stated, fails: with no stored row for the channel, none of the four
    operations rejects with an error tagged UnknownChannel.  startBet resolves
    to [undefined], settleChannel and initiatorSettle resolve to [false], and
    closeChannel rejects with a TypeError. *)
Lemma unknown_channel_not_tagged :
  let w := Scenario.world [] [] in
  channels w !! Scenario.chan = None
  /\ result (SCClient.startBet Scenario.env Scenario.chan Scenario.bob 63 6 100
               "seedA") w = Return VUndefined
  /\ result (SCClient.closeChannel Scenario.env Scenario.bob) w
     = Throw (TypeError "Cannot read properties of null (reading 'status')")
  /\ result (SCClient.settleChannel Scenario.env Scenario.bob) w
     = Return (VBool false)
  /\ result (SCClient.initiatorSettle Scenario.env Scenario.chan 1) w
     = Return (VBool false)
  /\ ~ tagged_rejection "UnknownChannel"
         (result (SCClient.startBet Scenario.env Scenario.chan Scenario.bob
                    63 6 100 "seedA") w)
  /\ ~ tagged_rejection "UnknownChannel"
         (result (SCClient.closeChannel Scenario.env Scenario.bob) w)
  /\ ~ tagged_rejection "UnknownChannel"
         (result (SCClient.settleChannel Scenario.env Scenario.bob) w)
  /\ ~ tagged_rejection "UnknownChannel"
         (result (SCClient.initiatorSettle Scenario.env Scenario.chan 1) w).
Proof.
  cbv zeta.
  set (w := Scenario.world [] []).
  assert (channels w !! Scenario.chan = None) as Hc by by vm_compute.
  assert (channels w !! getChannelIdentifier Scenario.env Scenario.bob = None)
    as Hc' by by vm_compute.
  unfold result.
  rewrite (startBet_unknown_channel Scenario.env Scenario.chan Scenario.bob
             63 6 100 "seedA" w Hc).
  rewrite (closeChannel_unknown_channel Scenario.env Scenario.bob w Hc').
  rewrite (settleChannel_unknown Scenario.env Scenario.bob w Hc').
  rewrite (initiatorSettle_unknown_channel Scenario.env Scenario.chan 1 w Hc).
  cbn [fst]. unfold tagged_rejection.
  repeat split; try done; by intros [msg Hmsg].
Qed.

(** C4 (amended): invoked for a channel that has no stored row, startBet,
    settleChannel and initiatorSettle do not reject at all: each logs an error
    and resolves to a falsy value ([false] for settleChannel and
    initiatorSettle), having written nothing to the store, emitted nothing and
    submitted no transaction.  No rejection tagged UnknownChannel is
    produced. *)
Theorem unknown_channel_refused (env : Env) (id : ChannelId)
    (partner : Address) (mask modulo value : Z) (seed : string) (betId : nat)
    (w : World) :
  channels w !! id = None ->
  getChannelIdentifier env partner = id ->
  let start := SCClient.startBet env id partner mask modulo value seed in
  let settle := SCClient.settleChannel env partner in
  let initiator := SCClient.initiatorSettle env id betId in
  (exists v, result start w = Return v /\ falsy v = true)
  /\ result settle w = Return (VBool false)
  /\ result initiator w = Return (VBool false)
  /\ refused start w /\ refused settle w /\ refused initiator w
  /\ LogError "channel not exist in db" ∈ effects start w
  /\ LogError "channel not exist or channel status is not in (Closed, UpdateBalanceProof)"
       ∈ effects settle w
  /\ LogError "channel not exist or channel status is not in (Closed, UpdateBalanceProof)"
       ∈ effects initiator w
  /\ ~ tagged_rejection "UnknownChannel" (result start w)
  /\ ~ tagged_rejection "UnknownChannel" (result settle w)
  /\ ~ tagged_rejection "UnknownChannel" (result initiator w).
Proof.
  intros Hc Hid start settle initiator.
  assert (channels w !! getChannelIdentifier env partner = None) as Hc'
    by by rewrite Hid.
  pose proof (startBet_unknown_channel env id partner mask modulo value seed
                w Hc) as H1.
  pose proof (settleChannel_unknown env partner w Hc') as H2.
  pose proof (initiatorSettle_unknown_channel env id betId w Hc) as H3.
  fold start in H1. fold settle in H2. fold initiator in H3.
  assert (forall es, drop (length (trace w)) (trace (logged w es)) = es) as Hdrop.
  { intros es. rewrite trace_logged. apply drop_app_length. }
  unfold result, effects, final, tagged_rejection. rewrite H1, H2, H3.
  cbn [fst snd]. rewrite !Hdrop.
  split; [by exists VUndefined|]. split; [done|]. split; [done|].
  split; [eapply refused_logged; [exact H1|by repeat constructor]|].
  split; [eapply refused_logged; [exact H2|by repeat constructor]|].
  split; [eapply refused_logged; [exact H3|by repeat constructor]|].
  unfold settle_refusal, settle_lookup, settle_reads. cbn [app].
  split; [set_solver|]. split; [set_solver|]. split; [set_solver|].
  repeat split; by intros [msg Hmsg].
Qed.

Lemma unknown_channel_refused_witness :
  result (SCClient.settleChannel Scenario.env Scenario.bob)
         (Scenario.world [] []) = Return (VBool false)
  /\ result (SCClient.initiatorSettle Scenario.env Scenario.chan 1)
            (Scenario.world [] []) = Return (VBool false)
  /\ refused (SCClient.startBet Scenario.env Scenario.chan Scenario.bob 63 6
                100 "seedA") (Scenario.world [] []).
Proof.
  destruct (unknown_channel_refused Scenario.env Scenario.chan Scenario.bob
              63 6 100 "seedA" 1%nat (Scenario.world [] []))
    as (_ & Hsettle & Hinit & Hstart & _).
  - vm_compute. reflexivity.
  - reflexivity.
  - exact (conj Hsettle (conj Hinit Hstart)).
Defined.

(** ** getChannel (C6) *)

(** C6 (what the code does): getChannel resolves to an empty object whatever
    the partner and whatever the store holds, and makes no call at all; it
    never resolves to the stored channel record. *)
Theorem getChannel_returns_empty_object (partnerAddress : Address) (w : World) :
  SCClient.getChannel partnerAddress w = (Return VEmptyObject, w).
Proof. reflexivity. Qed.

(** The sibling getAllChannels does read the store. *)
Lemma getAllChannels_reads_store (w : World) :
  SCClient.getAllChannels w
  = (Return (VChannels (map snd (map_to_list (channels w)))),
     logged w [DbGetChannels]).
Proof. reflexivity. Qed.

Example getChannel_with_stored_channel :
  let w := Scenario.world [Scenario.channel CHANNEL_OPENED (Some 1)] [] in
  channels w !! Scenario.chan = Some (Scenario.channel CHANNEL_OPENED (Some 1))
  /\ Channel.partner (Scenario.channel CHANNEL_OPENED (Some 1)) = Scenario.bob
  /\ result (SCClient.getChannel Scenario.bob) w = Return VEmptyObject
  /\ effects (SCClient.getChannel Scenario.bob) w = [].
Proof. cbv zeta. repeat split; by vm_compute. Qed.

(** ** unlockChannel (C7, C10) *)

Lemma unlockChannel_run (env : Env) (partnerAddress : Address)
    (lockIdentifier : Hash) (w : World) :
  SCClient.unlockChannel env partnerAddress lockIdentifier w
  = (match chain env (TxUnlock (from env) partnerAddress lockIdentifier) with
     | TxHash _ => Return VUndefined
     | Reverted e => Throw e
     end,
     logged w [ChainSend (TxUnlock (from env) partnerAddress lockIdentifier)]).
Proof.
  run. destruct (chain env (TxUnlock (from env) partnerAddress lockIdentifier));
    reflexivity.
Qed.

(** The sibling deposit does return the awaited hash. *)
Lemma deposit_run (env : Env) (partnerAddress : Address) (depositAmount : Z)
    (w : World) :
  SCClient.deposit env partnerAddress depositAmount w
  = (reply_outcome (chain env (TxDeposit (from env) partnerAddress depositAmount)),
     logged w [ChainSend (TxDeposit (from env) partnerAddress depositAmount)]).
Proof.
  run. destruct (chain env (TxDeposit (from env) partnerAddress depositAmount));
    reflexivity.
Qed.

(** C7 (what the code does): when the unlock transaction is accepted,
    unlockChannel resolves to [undefined]; the hash the chain returned is
    dropped.  It rejects with the chain's error otherwise. *)
Theorem unlockChannel_drops_hash (env : Env) (partnerAddress : Address)
    (lockIdentifier : Hash) (w : World) :
  result (SCClient.unlockChannel env partnerAddress lockIdentifier) w
  = match chain env (TxUnlock (from env) partnerAddress lockIdentifier) with
    | TxHash _ => Return VUndefined
    | Reverted e => Throw e
    end.
Proof. unfold result. by rewrite unlockChannel_run. Qed.

Example unlockChannel_mined :
  chain Scenario.env (TxUnlock (from Scenario.env) Scenario.bob "0xlock")
  = TxHash "0xtx-unlock"
  /\ result (SCClient.unlockChannel Scenario.env Scenario.bob "0xlock")
            (Scenario.world [] []) = Return VUndefined
  /\ result (SCClient.deposit Scenario.env Scenario.bob 5)
            (Scenario.world [] []) = Return (VTxHash "0xtx-deposit").
Proof. repeat split; by vm_compute. Qed.

(** C10: whatever its arguments and whatever the store holds, unlockChannel
    makes exactly one call, the submission of the unlock transaction from the
    client's address: it reads nothing from the store, checks nothing, and
    leaves the store as it was; its outcome depends on the chain alone. *)
Theorem unlockChannel_unconditional (env : Env) (partnerAddress : Address)
    (lockIdentifier : Hash) (w : World) :
  let m := SCClient.unlockChannel env partnerAddress lockIdentifier in
  effects m w = [ChainSend (TxUnlock (from env) partnerAddress lockIdentifier)]
  /\ Forall (fun e => reads_store e = false) (effects m w)
  /\ channels (final m w) = channels w
  /\ bets (final m w) = bets w
  /\ (forall w', result m w' = result m w).
Proof.
  intros m. unfold effects, result, final. subst m.
  rewrite unlockChannel_run. cbn [fst snd].
  rewrite trace_logged, drop_app_length.
  split; [done|]. split; [by repeat constructor|]. split; [done|].
  split; [done|]. intros w'. by rewrite unlockChannel_run.
Qed.

(** ** on (C9) *)

Lemma on_run (event : string) (callback : Callback) (w : World) :
  SCClient.on event callback w
  = match SCClient.assign event callback (eventList w) with
    | Return o =>
        (Return VThis,
         mkWorld (channels w) (bets w) (socket w) o
                 (trace w ++ [LogInfo "onEvent set event now"]))
    | Throw e => (Throw e, logged w [LogInfo "onEvent set event now"])
    end.
Proof.
  unfold SCClient.on, logInfo, bind, record, ret, logged.
  cbn [eventList]. by destruct (SCClient.assign event callback (eventList w)).
Qed.

Lemma register_all_cons (event : string) (callback : Callback)
    (rest : list (string * Callback)) (w : World) :
  register_all ((event, callback) :: rest) w
  = match SCClient.on event callback w with
    | (Return _, w') => register_all rest w'
    | (Throw e, w') => (Throw e, w')
    end.
Proof. reflexivity. Qed.



(** The handler the object holds under a name, read off the object. *)
Lemma handler_eq (event : string) (w w' : World) :
  eventList w = eventList w' ->
  EventManager.handler event w = EventManager.handler event w'.
Proof. unfold EventManager.handler. by intros ->. Qed.

(** An assignment that succeeds is read back, and touches no other own
    property; it changes the prototype only under the name __proto__. *)
Lemma assign_Return (event : string) (callback : Callback) (o o' : EventList) :
  SCClient.assign event callback o = Return o' ->
  (own o' !! event = Some callback
   \/ (event = "__proto__" /\ own o' !! event = None
       /\ prototype o' = Some callback))
  /\ (forall name, name <> event -> own o' !! name = own o !! name)
  /\ (event <> "__proto__" -> prototype o' = prototype o)
  /\ dom (own o) ⊆ dom (own o').
Proof.
  unfold SCClient.assign.
  assert (forall p, let o1 := mkEventList (<[event := callback]> (own o)) p in
                    own o1 !! event = Some callback
                    /\ (forall name, name <> event ->
                          own o1 !! name = own o !! name)
                    /\ dom (own o) ⊆ dom (own o1)) as Hins.
  { intros p. cbn. split; [apply lookup_insert_eq|].
    split; [intros name Hne; by apply lookup_insert_ne|].
    rewrite dom_insert_L. apply union_subseteq_r. }
  destruct (own o !! event) as [old|] eqn:Hown.
  - intros [= <-]. destruct (Hins (prototype o)) as (H1 & H2 & H3).
    split; [by left|]. done.
  - case_bool_decide as Hp.
    + intros [= <-]. cbn. split; [right; by rewrite Hown|]. done.
    + destruct (prototype o) as [h|] eqn:Hproto.
      * destruct (SCClient.unassignable event); [done|].
        intros [= <-]. destruct (Hins (Some h)) as (H1 & H2 & H3).
        split; [by left|]. done.
      * intros [= <-]. destruct (Hins None) as (H1 & H2 & H3).
        split; [by left|]. done.
Qed.


(** A run of registrations, finished or stopped by a TypeError, leaves the
    handlers of the names it does not mention where they were: it changes no
    own property under such a name, and the prototype only under __proto__. *)
Lemma register_all_frame (regs : list (string * Callback)) (w : World) :
  (forall name, name ∉ regs.*1 ->
     own (eventList (final (register_all regs) w)) !! name
     = own (eventList w) !! name)
  /\ ("__proto__" ∉ regs.*1 ->
      prototype (eventList (final (register_all regs) w))
      = prototype (eventList w))
  /\ dom (own (eventList w))
     ⊆ dom (own (eventList (final (register_all regs) w))).
Proof.
  revert w. induction regs as [|[e cb] rest IH]; intros w; [done|].
  unfold final. rewrite register_all_cons, on_run.
  destruct (SCClient.assign e cb (eventList w)) as [o|err] eqn:Ha.
  - destruct (assign_Return _ _ _ _ Ha) as (_ & Hother & Hproto & Hdom).
    destruct (IH (mkWorld (channels w) (bets w) (socket w) o
                          (trace w ++ [LogInfo "onEvent set event now"])))
      as (IH1 & IH2 & IH3).
    unfold final in *. cbn [eventList] in *.
    split; [|split].
    + intros name Hnot. cbn in Hnot. apply not_elem_of_cons in Hnot as [Hne Hnot].
      rewrite (IH1 name Hnot). by apply Hother.
    + intros Hnot. cbn in Hnot. apply not_elem_of_cons in Hnot as [Hne Hnot].
      rewrite (IH2 Hnot). apply Hproto. congruence.
    + by etrans.
  - done.
Qed.

Lemma register_all_handler_frame (regs : list (string * Callback))
    (event : string) (w : World) :
  event ∉ regs.*1 ->
  EventManager.handler event (final (register_all regs) w)
  = EventManager.handler event w.
Proof.
  intros Hnot. destruct (register_all_frame regs w) as (Hown & Hproto & _).
  unfold EventManager.handler. rewrite (Hown event Hnot).
  destruct (own (eventList w) !! event); [done|].
  case_bool_decide as Hp; [|done]. subst event. by rewrite (Hproto Hnot).
Qed.






Example on_twice :
  EventManager.handler "BetRequest"
    (final (register_all [("BetRequest", Handler 1); ("Preimage", Handler 2);
                          ("BetRequest", Handler 3); ("Preimage", Handler 4)])
           (Scenario.world [] []))
  = Registered (Handler 3).
Proof. by vm_compute. Qed.

(** Under the name __proto__ the registration replaces the prototype: no
    property is added, the handler read back is the callback all the same,
    and a later registration under the name of a property every function has
    is stopped by a TypeError. *)
Example on_proto :
  let w := final (SCClient.on "__proto__" (Handler 1)) (Scenario.world [] []) in
  own (eventList w) = ∅
  /\ EventManager.handler "__proto__" w = Registered (Handler 1)
  /\ result (SCClient.on "BetRequest" (Handler 2)) w = Return VThis
  /\ result (SCClient.on "length" (Handler 2)) w
     = Throw (TypeError "Cannot assign to read only property").
Proof. cbv zeta. repeat split; by vm_compute. Qed.


(** * Further properties of the methods *)

(** Unfolding a run of the methods the statements above do not mention. *)
Ltac run_more :=
  unfold SCClient.openChannel, Cooperative.closeChannelCooperative,
    Cooperative.reject, Cooperative.socket_emit;
  run.

Lemma effects_of_logged {A} (m : M A) (w : World) (o : Outcome A)
    (es : list Effect) :
  m w = (o, logged w es) -> effects m w = es.
Proof.
  intros Hm. unfold effects, final. rewrite Hm. cbn [snd].
  rewrite trace_logged. apply drop_app_length.
Qed.

(** ** closeChannel *)

Section Close.
Variable env : Env.
Variable partnerAddress : Address.

Lemma closeChannel_not_opened (w : World) (c : Channel.t) :
  channels w !! getChannelIdentifier env partnerAddress = Some c ->
  Channel.status c <> CHANNEL_OPENED ->
  SCClient.closeChannel env partnerAddress w
  = (Return (VBool false),
     logged w (settle_lookup env partnerAddress
               ++ [LogError "Channel is not open now"])).
Proof.
  intros Hc Hs. unfold settle_lookup. run. rewrite Hc. cbn.
  rewrite bool_decide_eq_true_2 by done. cbn.
  rewrite <- !app_assoc. reflexivity.
Qed.

Lemma closeChannel_assembly_fails (w : World) (c : Channel.t) (e : Thrown) :
  channels w !! getChannelIdentifier env partnerAddress = Some c ->
  Channel.status c = CHANNEL_OPENED ->
  getCloseData env (logged w (settle_lookup env partnerAddress)) c = Throw e ->
  SCClient.closeChannel env partnerAddress w
  = (Throw e, logged w (settle_lookup env partnerAddress)).
Proof.
  intros Hc Hs Hd. unfold settle_lookup, logged in *. run. rewrite Hc. cbn.
  rewrite bool_decide_eq_false_2 by (intros ?; done). cbn.
  rewrite <- !app_assoc. cbn. rewrite Hd. reflexivity.
Qed.

Lemma closeChannel_submits (w : World) (c : Channel.t) (d : CloseData) :
  channels w !! getChannelIdentifier env partnerAddress = Some c ->
  Channel.status c = CHANNEL_OPENED ->
  getCloseData env (logged w (settle_lookup env partnerAddress)) c = Return d ->
  SCClient.closeChannel env partnerAddress w
  = (reply_outcome (chain env (close_tx partnerAddress d)),
     logged w (settle_lookup env partnerAddress
               ++ [ChainSend (close_tx partnerAddress d)])).
Proof.
  intros Hc Hs Hd. unfold settle_lookup, logged, close_tx in *. run.
  rewrite Hc. cbn.
  rewrite bool_decide_eq_false_2 by (intros ?; done). cbn.
  rewrite <- !app_assoc. cbn. rewrite Hd. cbn.
  destruct (chain env _); cbn; rewrite <- !app_assoc; reflexivity.
Qed.

End Close.

(** X1: closeChannel submits a transaction only for a stored channel whose
    status is Opened, and it is then the close built from the assembled close
    proof, the call resolving or rejecting as the chain does; on a stored
    channel with any other status it resolves to [false] and submits nothing;
    in no case does it write to the store or emit on the socket. *)
Theorem closeChannel_only_when_opened (env : Env) (partnerAddress : Address)
    (w : World) :
  let id := getChannelIdentifier env partnerAddress in
  let m := SCClient.closeChannel env partnerAddress in
  (forall tx, ChainSend tx ∈ effects m w ->
     exists c d,
       channels w !! id = Some c
       /\ Channel.status c = CHANNEL_OPENED
       /\ getCloseData env (logged w (settle_lookup env partnerAddress)) c
          = Return d
       /\ tx = close_tx partnerAddress d)
  /\ (forall c,
        channels w !! id = Some c ->
        Channel.status c <> CHANNEL_OPENED ->
        result m w = Return (VBool false) /\ refused m w)
  /\ (forall c d,
        channels w !! id = Some c ->
        Channel.status c = CHANNEL_OPENED ->
        getCloseData env (logged w (settle_lookup env partnerAddress)) c
          = Return d ->
        effects m w
          = settle_lookup env partnerAddress
            ++ [ChainSend (close_tx partnerAddress d)]
        /\ result m w = reply_outcome (chain env (close_tx partnerAddress d)))
  /\ channels (final m w) = channels w
  /\ bets (final m w) = bets w
  /\ Forall (fun e => persists e = false /\ emits e = false) (effects m w).
Proof.
  intros id m. subst m.
  destruct (channels w !! id) as [c|] eqn:Hc.
  - destruct (decide (Channel.status c = CHANNEL_OPENED)) as [Hs|Hs].
    + destruct (getCloseData env (logged w (settle_lookup env partnerAddress)) c)
        as [d|e] eqn:Hd.
      * pose proof (closeChannel_submits env partnerAddress w c d Hc Hs Hd) as Hrun.
        rewrite (effects_of_logged _ _ _ _ Hrun).
        unfold result, final. rewrite Hrun. cbn [fst snd].
        split; [|split; [|split]].
        -- intros tx Hin. exists c, d. do 3 (split; [done|]).
           unfold settle_lookup in Hin. elem_cases Hin. congruence.
        -- intros c' [= <-] Hs'. done.
        -- intros c' d' [= <-] _ Hd'. rewrite Hd in Hd'. injection Hd' as <-. done.
        -- do 2 (split; [done|]). unfold settle_lookup. by repeat constructor.
      * pose proof (closeChannel_assembly_fails env partnerAddress w c e Hc Hs Hd)
          as Hrun.
        rewrite (effects_of_logged _ _ _ _ Hrun).
        unfold result, final. rewrite Hrun. cbn [fst snd].
        split; [|split; [|split]].
        -- intros tx Hin. unfold settle_lookup in Hin. elem_cases Hin.
        -- intros c' [= <-] Hs'. done.
        -- intros c' d' [= <-] _ Hd'. congruence.
        -- do 2 (split; [done|]). unfold settle_lookup. by repeat constructor.
    + pose proof (closeChannel_not_opened env partnerAddress w c Hc Hs) as Hrun.
      rewrite (effects_of_logged _ _ _ _ Hrun).
      split; [|split; [|split]].
      * intros tx Hin. unfold settle_lookup in Hin. elem_cases Hin.
      * intros c' [= <-] _. split; [by unfold result; rewrite Hrun|].
        eapply refused_logged; [exact Hrun|].
        unfold settle_lookup. by repeat constructor.
      * intros c' d' [= <-] Hs'. done.
      * unfold final. rewrite Hrun. cbn [snd]. do 2 (split; [done|]).
        unfold settle_lookup. by repeat constructor.
  - pose proof (closeChannel_unknown_channel env partnerAddress w Hc) as Hrun.
    rewrite (effects_of_logged _ _ _ _ Hrun).
    unfold result, final. rewrite Hrun. cbn [fst snd].
    split; [|split; [|split]].
    + intros tx Hin. unfold settle_lookup in Hin. elem_cases Hin.
    + intros c' [=].
    + intros c' d' [=].
    + do 2 (split; [done|]). unfold settle_lookup. by repeat constructor.
Qed.

(** X2: With no stored row for the channel, closeChannel rejects with a
    TypeError (there is no [!channel] test before [channel.status]), after
    the identifier read and the store lookup, having written, emitted and
    submitted nothing. *)
Theorem closeChannel_without_record_throws (env : Env)
    (partnerAddress : Address) (w : World) :
  channels w !! getChannelIdentifier env partnerAddress = None ->
  let m := SCClient.closeChannel env partnerAddress in
  result m w
  = Throw (TypeError "Cannot read properties of null (reading 'status')")
  /\ effects m w
     = [ChainGetChannelIdentifier partnerAddress;
        DbGetChannel (getChannelIdentifier env partnerAddress)]
  /\ refused m w.
Proof.
  intros Hc m.
  pose proof (closeChannel_unknown_channel env partnerAddress w Hc) as Hrun.
  fold m in Hrun. split; [by unfold result; rewrite Hrun|].
  split; [by rewrite (effects_of_logged _ _ _ _ Hrun)|].
  eapply refused_logged; [exact Hrun|].
  unfold settle_lookup. by repeat constructor.
Qed.

Lemma closeChannel_without_record_throws_witness :
  result (SCClient.closeChannel Scenario.env Scenario.bob)
         (Scenario.world [] [])
  = Throw (TypeError "Cannot read properties of null (reading 'status')")
  /\ effects (SCClient.closeChannel Scenario.env Scenario.bob)
             (Scenario.world [] [])
     = [ChainGetChannelIdentifier Scenario.bob; DbGetChannel Scenario.chan]
  /\ refused (SCClient.closeChannel Scenario.env Scenario.bob)
             (Scenario.world [] []).
Proof.
  apply (closeChannel_without_record_throws Scenario.env Scenario.bob
           (Scenario.world [] [])).
  vm_compute. reflexivity.
Defined.

(** ** closeChannelCooperative *)

Section CloseCooperative.
Variable Request : Type.
Variable generate : ChannelId -> Address -> Z -> Address -> Z -> Request.
Variable env : Env.
Variable partnerAddress : Address.

Local Abbreviation coop :=
  (Cooperative.closeChannelCooperative Request generate env partnerAddress).

Lemma closeChannelCooperative_unknown (w : World) :
  channels w !! getChannelIdentifier env partnerAddress = None ->
  coop w
  = (Return (VBool false, []),
     logged w (settle_lookup env partnerAddress
               ++ [LogError "channel not exist or channel is not open"])).
Proof.
  intros Hc. unfold settle_lookup. run_more. rewrite Hc. cbn.
  rewrite <- !app_assoc. reflexivity.
Qed.

Lemma closeChannelCooperative_not_opened (w : World) (c : Channel.t) :
  channels w !! getChannelIdentifier env partnerAddress = Some c ->
  Channel.status c <> CHANNEL_OPENED ->
  coop w
  = (Return (VBool false, []),
     logged w (settle_lookup env partnerAddress
               ++ [LogError "channel not exist or channel is not open"])).
Proof.
  intros Hc Hs. unfold settle_lookup. run_more. rewrite Hc. cbn.
  rewrite bool_decide_eq_true_2 by done. cbn.
  rewrite <- !app_assoc. reflexivity.
Qed.

Lemma closeChannelCooperative_opened (w : World) (c : Channel.t) :
  channels w !! getChannelIdentifier env partnerAddress = Some c ->
  Channel.status c = CHANNEL_OPENED ->
  coop w
  = (if socket w then
       Return (VBool true,
               [("CooperativeSettleRequest",
                 generate (getChannelIdentifier env partnerAddress) (from env)
                   (Channel.localBalance c) partnerAddress
                   (Channel.remoteBalance c))])
     else Throw (TypeError "Cannot read properties of undefined (reading 'emit')"),
     logged w (settle_lookup env partnerAddress)).
Proof.
  intros Hc Hs. unfold settle_lookup. run_more. rewrite Hc. cbn.
  rewrite bool_decide_eq_false_2 by (intros ?; done). cbn.
  destruct (socket w) eqn:Hk; cbn; rewrite <- !app_assoc, ?Hk; reflexivity.
Qed.

End CloseCooperative.

(** X3: closeChannelCooperative emits a message only for a stored channel whose
    status is Opened: it is then the one CooperativeSettleRequest generated
    from the client's address with the stored local balance and the partner's
    address with the stored remote balance, and the call resolves to [true]
    (it rejects with a TypeError while the socket is not set).  For a missing
    or not Opened channel it resolves to [false] and emits nothing.  It never
    writes to the store and never submits a transaction. *)
Theorem closeChannelCooperative_gate (Request : Type)
    (generate : ChannelId -> Address -> Z -> Address -> Z -> Request)
    (env : Env) (partnerAddress : Address) (w : World) :
  let id := getChannelIdentifier env partnerAddress in
  let m := Cooperative.closeChannelCooperative Request generate env
             partnerAddress in
  (forall c,
     channels w !! id = Some c -> Channel.status c = CHANNEL_OPENED ->
     result m w
     = if socket w then
         Return (VBool true,
                 [("CooperativeSettleRequest",
                   generate id (from env) (Channel.localBalance c)
                     partnerAddress (Channel.remoteBalance c))])
       else Throw (TypeError "Cannot read properties of undefined (reading 'emit')"))
  /\ (channels w !! id = None
      \/ (exists c, channels w !! id = Some c
                    /\ Channel.status c <> CHANNEL_OPENED) ->
      result m w = Return (VBool false, []))
  /\ (forall v event request emitted,
        result m w = Return (v, (event, request) :: emitted) ->
        exists c,
          channels w !! id = Some c /\ Channel.status c = CHANNEL_OPENED
          /\ v = VBool true /\ event = "CooperativeSettleRequest"
          /\ emitted = [])
  /\ refused m w.
Proof.
  intros id m. subst m.
  destruct (channels w !! id) as [c|] eqn:Hc.
  - destruct (decide (Channel.status c = CHANNEL_OPENED)) as [Hs|Hs].
    + pose proof (closeChannelCooperative_opened Request generate env
                    partnerAddress w c Hc Hs) as Hrun.
      unfold result. rewrite Hrun. cbn [fst].
      split; [by intros c' [= <-] _|].
      split; [intros [[=]|(c' & [= <-] & Hs')]; done|].
      split.
      * intros v event request emitted Hres. exists c.
        destruct (socket w); [|discriminate]. by injection Hres as <- <- _ <-.
      * eapply refused_logged; [exact Hrun|].
        unfold settle_lookup. by repeat constructor.
    + pose proof (closeChannelCooperative_not_opened Request generate env
                    partnerAddress w c Hc Hs) as Hrun.
      unfold result. rewrite Hrun. cbn [fst].
      split; [by intros c' [= <-] Hs'|]. split; [done|].
      split; [by intros v event request emitted [=]|].
      eapply refused_logged; [exact Hrun|].
      unfold settle_lookup. by repeat constructor.
  - pose proof (closeChannelCooperative_unknown Request generate env
                  partnerAddress w Hc) as Hrun.
    unfold result. rewrite Hrun. cbn [fst].
    split; [by intros c' [=]|]. split; [done|].
    split; [by intros v event request emitted [=]|].
    eapply refused_logged; [exact Hrun|].
    unfold settle_lookup. by repeat constructor.
Qed.

(** ** openChannel and deposit *)

(** openChannel and deposit consult nothing: whatever the store holds (a
    channel with that partner or none), each makes exactly one call, the
    submission of its transaction from the client's own address - for
    openChannel with the settle window 6 fixed in the code - and resolves to
    the hash, or rejects with the error, the chain answers with. *)
Theorem openChannel_and_deposit_unconditional (env : Env)
    (partnerAddress : Address) (amount : Z) (w : World) :
  let opening := TxOpenChannel (from env) partnerAddress 6 amount in
  let depositing := TxDeposit (from env) partnerAddress amount in
  SCClient.openChannel env partnerAddress amount w
  = (reply_outcome (chain env opening), logged w [ChainSend opening])
  /\ SCClient.deposit env partnerAddress amount w
     = (reply_outcome (chain env depositing), logged w [ChainSend depositing])
  /\ (forall w',
        result (SCClient.openChannel env partnerAddress amount) w'
        = result (SCClient.openChannel env partnerAddress amount) w
        /\ result (SCClient.deposit env partnerAddress amount) w'
           = result (SCClient.deposit env partnerAddress amount) w).
Proof.
  intros opening depositing.
  assert (forall w0, SCClient.openChannel env partnerAddress amount w0
                     = (reply_outcome (chain env opening),
                        logged w0 [ChainSend opening])) as Hopen.
  { intros w0. subst opening. run_more. by destruct (chain env _). }
  split; [apply Hopen|]. split; [apply deposit_run|].
  intros w'. unfold result.
  by rewrite !Hopen, !deposit_run.
Qed.

(** ** startBet: when it succeeds, and what it leaves alone *)

Lemma unfinished_false (lastBet : option Bet.t) :
  SCClient.unfinished lastBet = false
  <-> forall b, lastBet = Some b -> Bet.status b = BET_FINISH.
Proof.
  unfold SCClient.unfinished. destruct lastBet as [b|].
  - rewrite bool_decide_eq_false. split.
    + intros Hb b' [= <-]. by destruct (decide (Bet.status b = BET_FINISH)).
    + intros Hb Hne. by apply Hne, Hb.
  - split; [by intros _ b [=] | done].
Qed.

Lemma insufficient_false (env : Env) (c : Channel.t) (win value : Z) :
  safe_amounts env c win value ->
  SCClient.insufficient env c win value = false
  <-> win <= Channel.remoteBalance c /\ value <= Channel.localBalance c.
Proof.
  intros (Hp & Hl & Hr & Hw & Hv). rewrite insufficient_safe by done.
  rewrite orb_false_iff, !Z.ltb_ge. lia.
Qed.

Lemma of_Z_safe (z : Z) : JsNumber.safe z -> JsNumber.of_Z z = JsNumber.Finite z.
Proof.
  unfold JsNumber.safe, JsNumber.of_Z. intros Hz.
  rewrite nearest_safe by lia.
  destruct (Z.leb_spec (2 ^ 1024) (Z.abs z)) as [Hbig|]; [|done].
  assert (2 ^ 53 < 2 ^ 1024) by (apply Z.pow_lt_mono_r; lia). lia.
Qed.

Lemma Scenario_parseInt_exact : parseInt_exact Scenario.env.
Proof. intros z Hz. by apply of_Z_safe. Qed.

(** X4: when the amounts are safe integers, startBet resolves to [true]
    exactly when the channel is stored with status Opened, its current-round
    bet is absent or Finish, the stake is at most the local balance and the
    win amount at most the remote balance (both bounds included), and the
    socket is set.  Nothing else is checked: not the sign of the stake, nor
    the partner address. *)
Theorem startBet_succeeds_iff (env : Env) (id : ChannelId) (partner : Address)
    (mask modulo value : Z) (seed : string) (w : World) :
  (forall c, channels w !! id = Some c ->
     safe_amounts env c (getPossibleWinAmount env mask modulo value) value) ->
  result (SCClient.startBet env id partner mask modulo value seed) w
    = Return (VBool true)
  <-> exists c,
        channels w !! id = Some c
        /\ Channel.status c = CHANNEL_OPENED
        /\ (forall b, last_bet id w c = Some b -> Bet.status b = BET_FINISH)
        /\ value <= Channel.localBalance c
        /\ getPossibleWinAmount env mask modulo value <= Channel.remoteBalance c
        /\ socket w = true.
Proof.
  intros Hsafe. split.
  - intros Hres.
    pose proof (startBet_path env id partner mask modulo value seed w) as Hp.
    rewrite Hres in Hp.
    inversion Hp as [| | | |c Hc Hs Hu Hi Hk|]; subst.
    exists c. pose proof (proj1 (unfinished_false _) Hu) as Hfin.
    pose proof (proj1 (insufficient_false _ _ _ _ (Hsafe c Hc)) Hi) as Hbal.
    tauto.
  - intros (c & Hc & Hs & Hu & Hl & Hr & Hk).
    unfold result.
    rewrite (startBet_accepted env id partner mask modulo value seed w c);
      [done|done|done|by apply unfinished_false
      |apply (insufficient_false _ _ _ _ (Hsafe c Hc)); lia|done].
Qed.

Lemma startBet_succeeds_iff_witness :
  let w := Scenario.world [Scenario.channel CHANNEL_OPENED None] [] in
  result (SCClient.startBet Scenario.env Scenario.chan Scenario.bob 63 6 1000
            "seedA") w
    = Return (VBool true)
  <-> exists c,
        channels w !! Scenario.chan = Some c
        /\ Channel.status c = CHANNEL_OPENED
        /\ (forall b, last_bet Scenario.chan w c = Some b ->
            Bet.status b = BET_FINISH)
        /\ 1000 <= Channel.localBalance c
        /\ getPossibleWinAmount Scenario.env 63 6 1000
           <= Channel.remoteBalance c
        /\ socket w = true.
Proof.
  apply (startBet_succeeds_iff Scenario.env Scenario.chan Scenario.bob 63 6
           1000 "seedA").
  intros c Hc. vm_compute in Hc. injection Hc as <-.
  split; [apply Scenario_parseInt_exact|].
  unfold JsNumber.safe. cbn. lia.
Defined.

(** X5: Called before the socket is set (initMessageHandler not yet run) on a
    channel that passes every check (the amounts being safe integers),
    startBet rejects with a TypeError only after its two writes: the Bet row
    is in the store and the channel's round is advanced, although no
    BetRequest was emitted. *)
Theorem startBet_before_socket_is_set (env : Env) (id : ChannelId)
    (partner : Address) (mask modulo value : Z) (seed : string) (w : World)
    (c : Channel.t) :
  channels w !! id = Some c ->
  Channel.status c = CHANNEL_OPENED ->
  (forall b, last_bet id w c = Some b -> Bet.status b = BET_FINISH) ->
  safe_amounts env c (getPossibleWinAmount env mask modulo value) value ->
  value <= Channel.localBalance c ->
  getPossibleWinAmount env mask modulo value <= Channel.remoteBalance c ->
  socket w = false ->
  let m := SCClient.startBet env id partner mask modulo value seed in
  let round := SCClient.next_round (Channel.currentRound c) in
  result m w
  = Throw (TypeError "Cannot read properties of undefined (reading 'emit')")
  /\ bets (final m w)
     = bets w ++ [Bet.set_betId (S (length (bets w)))
                    (new_bet env id partner mask modulo value seed round)]
  /\ channels (final m w) !! id = Some (Channel.set_currentRound round c)
  /\ Forall (fun e => emits e = false) (effects m w)
  /\ filter (fun e => persists e = true) (effects m w)
     = [DbAddBet (new_bet env id partner mask modulo value seed round);
        DbUpdateChannel id round].
Proof.
  intros Hc Hs Hu Hsafe Hl Hr Hk m round. subst m.
  unfold effects, result, final.
  rewrite (startBet_no_socket env id partner mask modulo value seed w c);
    [|done|done|by apply unfinished_false
     |apply (insufficient_false _ _ _ _ Hsafe); lia|done].
  unfold started. cbn [fst snd channels bets trace].
  rewrite app_nil_r, drop_app_length.
  split; [done|]. split; [done|].
  split; [by rewrite lookup_alter_eq, Hc|].
  split; [by repeat constructor|done].
Qed.

Lemma startBet_before_socket_is_set_witness :
  let w := mkWorld {[ Scenario.chan := Scenario.channel CHANNEL_OPENED None ]}
             [] false ∅ [] in
  let m := SCClient.startBet Scenario.env Scenario.chan Scenario.bob 63 6 100
             "seedA" in
  result m w
  = Throw (TypeError "Cannot read properties of undefined (reading 'emit')")
  /\ bets (final m w)
     = bets w ++ [Bet.set_betId (S (length (bets w)))
                    (new_bet Scenario.env Scenario.chan Scenario.bob 63 6 100
                       "seedA" 1)]
  /\ channels (final m w) !! Scenario.chan
     = Some (Channel.set_currentRound 1
               (Scenario.channel CHANNEL_OPENED None))
  /\ Forall (fun e => emits e = false) (effects m w)
  /\ filter (fun e => persists e = true) (effects m w)
     = [DbAddBet (new_bet Scenario.env Scenario.chan Scenario.bob 63 6 100
                    "seedA" 1);
        DbUpdateChannel Scenario.chan 1].
Proof.
  apply (startBet_before_socket_is_set Scenario.env Scenario.chan Scenario.bob
           63 6 100 "seedA" _ (Scenario.channel CHANNEL_OPENED None)).
  - vm_compute. reflexivity.
  - reflexivity.
  - intros b Hb. vm_compute in Hb. discriminate.
  - split; [apply Scenario_parseInt_exact|].
    unfold JsNumber.safe. cbn. lia.
  - simpl. lia.
  - simpl. lia.
  - reflexivity.
Defined.

(** A case analysis on the path a run of startBet took. *)
Ltac startBet_paths env id partner mask modulo value seed w :=
  let Hp := fresh "Hp" in
  pose proof (startBet_path env id partner mask modulo value seed w) as Hp;
  unfold effects;
  remember (result (SCClient.startBet env id partner mask modulo value seed) w)
    as out;
  remember (final (SCClient.startBet env id partner mask modulo value seed) w)
    as w';
  destruct Hp as [Hn|c' Hc' Hs|c' Hc' Hs Hu|c' Hc' Hs Hu Hi
                 |c' Hc' Hs Hu Hi Hk|c' Hc' Hs Hu Hi Hk].

(** X6: Whatever its arguments and whatever the store holds, startBet makes no
    call on the blockchain proxy, neither a read nor a transaction. *)
Theorem startBet_never_touches_chain (env : Env) (id : ChannelId)
    (partner : Address) (mask modulo value : Z) (seed : string) (w : World) :
  Forall (fun e => touches_chain e = false)
    (effects (SCClient.startBet env id partner mask modulo value seed) w).
Proof.
  startBet_paths env id partner mask modulo value seed w;
    unfold started; rewrite ?trace_logged; cbn [trace];
    rewrite drop_app_length; by repeat constructor.
Qed.

(** X7: startBet never creates or deletes a channel row, never changes the row
    of another channel, and changes nothing of its own channel's row but
    current_round (status and balances stay as they were), which it either
    keeps or advances by one step. *)
Theorem startBet_channel_frame (env : Env) (id : ChannelId)
    (partner : Address) (mask modulo value : Z) (seed : string) (w : World) :
  let w' := final (SCClient.startBet env id partner mask modulo value seed) w in
  erase_round <$> channels w' = erase_round <$> channels w
  /\ (forall id', id' <> id -> channels w' !! id' = channels w !! id')
  /\ (forall c, channels w !! id = Some c ->
      channels w' !! id = Some c
      \/ channels w' !! id
         = Some (Channel.set_currentRound
                   (SCClient.next_round (Channel.currentRound c)) c)).
Proof.
  cbv zeta.
  assert (forall r,
            erase_round <$> alter (Channel.set_currentRound r) id (channels w)
            = erase_round <$> channels w) as Herase.
  { intros r. apply map_eq. intros k. rewrite !lookup_fmap.
    destruct (decide (k = id)) as [->|Hk].
    - rewrite lookup_alter_eq. by destruct (channels w !! id).
    - by rewrite lookup_alter_ne. }
  startBet_paths env id partner mask modulo value seed w;
    unfold started, logged; cbn [channels];
    try (split; [done|]; split; [done|]; by left).
  - split; [apply Herase|].
    split; [intros id' Hne; by rewrite lookup_alter_ne|].
    intros c Hc. right. rewrite Hc' in Hc. injection Hc as <-.
    by rewrite lookup_alter_eq, Hc'.
  - split; [apply Herase|].
    split; [intros id' Hne; by rewrite lookup_alter_ne|].
    intros c Hc. right. rewrite Hc' in Hc. injection Hc as <-.
    by rewrite lookup_alter_eq, Hc'.
Qed.

(** X8: startBet never changes or removes a stored Bet row: it appends at most
    one row, which is a bet of its channel with status Init at the round
    following the channel's current one. *)
Theorem startBet_bets_append_only (env : Env) (id : ChannelId)
    (partner : Address) (mask modulo value : Z) (seed : string) (w : World) :
  exists added,
    bets (final (SCClient.startBet env id partner mask modulo value seed) w)
    = bets w ++ added
    /\ (length added <= 1)%nat
    /\ Forall (fun b =>
                 Bet.channelId b = id /\ Bet.status b = BET_INIT
                 /\ exists c, channels w !! id = Some c
                              /\ Bet.round b
                                 = SCClient.next_round (Channel.currentRound c))
              added.
Proof.
  startBet_paths env id partner mask modulo value seed w;
    unfold started, logged; cbn [bets];
    try (exists []; rewrite app_nil_r; split; [done|]; split; [simpl; lia|];
         by constructor).
  - eexists [_]. split; [reflexivity|]. split; [simpl; lia|].
    constructor; [|by constructor]. cbn. eauto.
  - eexists [_]. split; [reflexivity|]. split; [simpl; lia|].
    constructor; [|by constructor]. cbn. eauto.
Qed.

(** ** startBet: two calls in a row, and what is persisted *)

Lemma find_app_none {A} (f : A -> bool) (l1 l2 : list A) :
  find f l1 = None -> find f (l1 ++ l2) = find f l2.
Proof.
  induction l1 as [|x l1 IH]; cbn; [done|].
  destruct (f x); [done | exact IH].
Qed.

(** X9: After a startBet that resolved to [true], any further startBet on the
    same channel is refused with [false] and changes nothing, whatever its
    arguments: the bet just stored is the channel's current-round bet and its
    status is Init.  (The store is assumed to hold no bet at the channel's
    next round before the first call.) *)
Theorem startBet_again_is_refused (env : Env) (id : ChannelId)
    (partner : Address) (mask modulo value : Z) (seed : string)
    (w w' : World) :
  SCClient.startBet env id partner mask modulo value seed w
    = (Return (VBool true), w') ->
  (forall c, channels w !! id = Some c ->
     find (dbhelper.bet_matches id
             (Some (SCClient.next_round (Channel.currentRound c))))
          (bets w) = None) ->
  forall partner' mask' modulo' value' seed',
    let again := SCClient.startBet env id partner' mask' modulo' value' seed' in
    result again w' = Return (VBool false)
    /\ bets (final again w') = bets w'
    /\ channels (final again w') = channels w'
    /\ Forall (fun e => persists e = false /\ emits e = false)
         (effects again w').
Proof.
  intros Hrun Hfresh partner' mask' modulo' value' seed' again.
  destruct (startBet_true_inv _ _ _ _ _ _ _ _ _ Hrun)
    as (c & Hc & Hs & Hu & Hi & ->).
  set (round := SCClient.next_round (Channel.currentRound c)).
  set (w' := started env id partner mask modulo value seed w c _).
  assert (channels w' !! id = Some (Channel.set_currentRound round c)) as Hc'.
  { unfold w', started. cbn [channels]. by rewrite lookup_alter_eq, Hc. }
  assert (SCClient.unfinished
            (last_bet id w' (Channel.set_currentRound round c)) = true) as Hu'.
  { unfold last_bet, w', started. cbn [bets Channel.currentRound Channel.set_currentRound].
    rewrite find_app_none by by apply Hfresh.
    cbn. unfold dbhelper.bet_matches. cbn.
    by rewrite !bool_decide_eq_true_2. }
  pose proof (startBet_unfinished env id partner' mask' modulo' value' seed' w'
                (Channel.set_currentRound round c) Hc' Hs Hu') as Hagain.
  fold again in Hagain.
  unfold result, final. rewrite (effects_of_logged _ _ _ _ Hagain), Hagain.
  cbn [fst snd]. do 3 (split; [done|]). by repeat constructor.
Qed.

Lemma startBet_again_is_refused_witness :
  let w := Scenario.world [Scenario.channel CHANNEL_OPENED (Some 1)]
                          [Scenario.bet BET_FINISH] in
  let w' := final (SCClient.startBet Scenario.env Scenario.chan Scenario.bob
                     63 6 100 "seedA") w in
  let again := SCClient.startBet Scenario.env Scenario.chan Scenario.bob
                 1 6 5 "seedC" in
  result again w' = Return (VBool false)
  /\ bets (final again w') = bets w'
  /\ channels (final again w') = channels w'
  /\ Forall (fun e => persists e = false /\ emits e = false) (effects again w').
Proof.
  apply (startBet_again_is_refused Scenario.env Scenario.chan Scenario.bob
           63 6 100 "seedA"
           (Scenario.world [Scenario.channel CHANNEL_OPENED (Some 1)]
                           [Scenario.bet BET_FINISH])).
  - vm_compute. reflexivity.
  - intros c Hc. vm_compute in Hc. injection Hc as <-. vm_compute. reflexivity.
Defined.

(** X10: The Bet row a successful startBet stores and the BetRequest it emits
    agree: the row holds the random Ra drawn from the seed together with its
    hash, status Init, the stake, the game rule's win amount and the client's
    address as initiator, and its signature, acceptor and game contract are
    those of the emitted message, whose [value] is the stake. *)
Theorem startBet_row_matches_request (env : Env) (id : ChannelId)
    (partner : Address) (mask modulo value : Z) (seed : string)
    (w w' : World) :
  SCClient.startBet env id partner mask modulo value seed w
    = (Return (VBool true), w') ->
  exists b request,
    last (bets w') = Some b
    /\ last (trace w') = Some (SocketEmit "BetRequest" request)
    /\ Bet.ra b = Some (generateRandomFromSeed2 env seed)
    /\ Bet.hashRa b = soliditySha3 env (generateRandomFromSeed2 env seed)
    /\ Bet.status b = BET_INIT
    /\ Bet.channelId b = id
    /\ Bet.betMask b = mask /\ Bet.modulo b = modulo /\ Bet.value b = value
    /\ Bet.winAmount b = getPossibleWinAmount env mask modulo value
    /\ Bet.positiveA b = from env
    /\ BetRequest.value request = Some value
    /\ Bet.signatureA b = BetRequest.signatureA request
    /\ Bet.negativeB b = BetRequest.negativeB request
    /\ Bet.gameContractAddress b = BetRequest.gameContractAddress request.
Proof.
  intros Hrun.
  destruct (startBet_true_inv _ _ _ _ _ _ _ _ _ Hrun)
    as (c & Hc & Hs & Hu & Hi & ->).
  do 2 eexists. unfold started. cbn [bets trace].
  split; [apply last_snoc|].
  split; [rewrite app_assoc; apply last_snoc|].
  cbn. done.
Qed.

Lemma startBet_row_matches_request_witness :
  exists b request,
    last (bets (final (SCClient.startBet Scenario.env Scenario.chan
                         Scenario.bob 63 6 100 "seedA")
                  (Scenario.world [Scenario.channel CHANNEL_OPENED None] [])))
      = Some b
    /\ Bet.hashRa b = "sha3:random:seedA"
    /\ Bet.ra b = Some "random:seedA"
    /\ BetRequest.value request = Some 100.
Proof.
  destruct (startBet_row_matches_request Scenario.env Scenario.chan
              Scenario.bob 63 6 100 "seedA"
              (Scenario.world [Scenario.channel CHANNEL_OPENED None] [])
              (final (SCClient.startBet Scenario.env Scenario.chan
                        Scenario.bob 63 6 100 "seedA")
                 (Scenario.world [Scenario.channel CHANNEL_OPENED None] [])))
    as (b & request & Hb & _ & Hra & Hhash & _ & _ & _ & _ & _ & _ & _ & Hv & _).
  - vm_compute. reflexivity.
  - exists b, request. split; [exact Hb|]. split; [exact Hhash|].
    split; [exact Hra | exact Hv].
Defined.

(** ** initiatorSettle and settleChannel: refusals and what they leave alone *)

Lemma initiatorSettle_assembly_fails (env : Env) (id : ChannelId) (betId : nat)
    (w : World) (c : Channel.t) (b : Bet.t) (e : Thrown) :
  channels w !! id = Some c ->
  SCClient.not_closed c = false ->
  stored_bet betId w = Some b ->
  SCClient.bet_status_wrong b = false ->
  getInitiatorSettleData c b = Throw e ->
  SCClient.initiatorSettle env id betId w
  = (Throw e, logged w (settle_reads id betId)).
Proof.
  unfold stored_bet, settle_reads. intros Hc Hn Hb Hw Hd. run.
  rewrite Hc, Hb. cbn. rewrite Hn. cbn. rewrite Hw. cbn. rewrite Hd. cbn.
  rewrite <- !app_assoc. reflexivity.
Qed.

Lemma bet_status_wrong_true (b : Bet.t) :
  SCClient.bet_status_wrong b = true
  <-> bet_status_code (Bet.status b) < bet_status_code BET_START
      \/ Bet.status b = BET_FINISH.
Proof.
  unfold SCClient.bet_status_wrong.
  by rewrite orb_true_iff, Z.ltb_lt, bool_decide_eq_true.
Qed.

(** X11: initiatorSettle resolves to [false] exactly when the channel has no
    stored row with status Closed or UpdateBalanceProof, or no bet is stored
    under the id, or the bet's status is below Start or is Finish.  It always
    reads the channel and then the bet before testing anything, it tests the
    channel first (so a bad channel is what gets logged even when the bet is
    missing too), and in no case does it write to the store or emit. *)
Theorem initiatorSettle_refuses_iff (env : Env) (id : ChannelId) (betId : nat)
    (w : World) :
  let m := SCClient.initiatorSettle env id betId in
  (result m w = Return (VBool false)
   <-> ~ closed_in w id
       \/ stored_bet betId w = None
       \/ exists b, stored_bet betId w = Some b
                    /\ (bet_status_code (Bet.status b) < bet_status_code BET_START
                        \/ Bet.status b = BET_FINISH))
  /\ (exists rest, effects m w = [DbGetChannel id; DbGetBet betId] ++ rest)
  /\ (~ closed_in w id ->
      effects m w
      = [DbGetChannel id; DbGetBet betId;
         LogError "channel not exist or channel status is not in (Closed, UpdateBalanceProof)"])
  /\ channels (final m w) = channels w
  /\ bets (final m w) = bets w
  /\ Forall (fun e => persists e = false /\ emits e = false) (effects m w).
Proof.
  intros m. subst m.
  assert (forall o es,
            SCClient.initiatorSettle env id betId w = (o, logged w es) ->
            result (SCClient.initiatorSettle env id betId) w = o
            /\ effects (SCClient.initiatorSettle env id betId) w = es
            /\ final (SCClient.initiatorSettle env id betId) w = logged w es)
    as Hobs.
  { intros o es Hrun. rewrite (effects_of_logged _ _ _ _ Hrun).
    unfold result, final. by rewrite Hrun. }
  destruct (closed_in_dec w id) as [(c & Hc & Hs)|Hopen].
  - assert (closed_in w id) as Hclosed by by exists c.
    apply not_closed_false in Hs as Hn.
    destruct (stored_bet betId w) as [b|] eqn:Hb.
    + destruct (SCClient.bet_status_wrong b) eqn:Hw.
      * destruct (Hobs _ _ (initiatorSettle_wrong_bet_status env id betId w c b
                              Hc Hn Hb Hw)) as (-> & -> & ->).
        apply bet_status_wrong_true in Hw.
        split; [split; [intros _; right; right; by exists b | done]|].
        split; [by eexists|]. split; [done|]. do 2 (split; [done|]).
        unfold settle_reads. by repeat constructor.
      * assert (~ (bet_status_code (Bet.status b) < bet_status_code BET_START
                   \/ Bet.status b = BET_FINISH)) as Hok.
        { intros Hbad. apply bet_status_wrong_true in Hbad. congruence. }
        destruct (getInitiatorSettleData c b) as [d|e] eqn:Hd.
        -- destruct (Hobs _ _ (initiatorSettle_submits env id betId w c b d
                                 Hc Hn Hb Hw Hd)) as (-> & -> & ->).
           split.
           { split.
             - destruct (chain env (initiator_tx env d)); discriminate.
             - intros [?|[?|(b' & [= <-] & ?)]]; done. }
           split; [by eexists|]. split; [done|]. do 2 (split; [done|]).
           unfold settle_reads. by repeat constructor.
        -- destruct (Hobs _ _ (initiatorSettle_assembly_fails env id betId w c
                                 b e Hc Hn Hb Hw Hd)) as (-> & -> & ->).
           split.
           { split; [discriminate|].
             intros [?|[?|(b' & [= <-] & ?)]]; done. }
           split; [exists []; by rewrite app_nil_r|]. split; [done|].
           do 2 (split; [done|]). unfold settle_reads. by repeat constructor.
    + destruct (Hobs _ _ (initiatorSettle_unknown_bet env id betId w c
                            Hc Hn Hb)) as (-> & -> & ->).
      split; [split; [intros _; right; by left | done]|].
      split; [by eexists|]. split; [done|]. do 2 (split; [done|]).
      unfold settle_reads. by repeat constructor.
  - assert (~ closed_in w id) as Hnot.
    { intros (c & Hc & Hs). apply not_closed_false in Hs.
      destruct Hopen as [Hn|(c' & Hc' & Hn)]; congruence. }
    assert (SCClient.initiatorSettle env id betId w
            = (Return (VBool false),
               logged w (settle_reads id betId ++
                         [LogError "channel not exist or channel status is not in (Closed, UpdateBalanceProof)"])))
      as Hrun.
    { destruct Hopen as [Hn|(c' & Hc' & Hn)].
      - by apply initiatorSettle_unknown_channel.
      - by eapply initiatorSettle_wrong_channel_status. }
    destruct (Hobs _ _ Hrun) as (-> & -> & ->).
    split; [split; [intros _; by left | done]|].
    split; [by eexists|]. split; [done|]. do 2 (split; [done|]).
    unfold settle_reads. by repeat constructor.
Qed.

(** X12: settleChannel never writes to the store and never emits on the socket,
    whatever it is called with; and when the settle proof cannot be assembled
    it rejects with the assembler's error without submitting anything. *)
Theorem settleChannel_store_untouched (env : Env) (partnerAddress : Address)
    (w : World) :
  let id := getChannelIdentifier env partnerAddress in
  let m := SCClient.settleChannel env partnerAddress in
  channels (final m w) = channels w
  /\ bets (final m w) = bets w
  /\ Forall (fun e => persists e = false /\ emits e = false) (effects m w)
  /\ (forall c e,
        channels w !! id = Some c ->
        Channel.status c = CHANNEL_CLOSED
        \/ Channel.status c = CHANNEL_UPDATEBALANCEPROOF ->
        getSettleData env (logged w (settle_lookup env partnerAddress)) c
          (Channel.localCloseBalanceHash c) (Channel.remoteCloseBalanceHash c)
          = Throw e ->
        result m w = Throw e
        /\ Forall (fun e => submits e = false) (effects m w)).
Proof.
  intros id m. subst m.
  assert (forall o es,
            SCClient.settleChannel env partnerAddress w = (o, logged w es) ->
            Forall (fun e => persists e = false /\ emits e = false) es ->
            channels (final (SCClient.settleChannel env partnerAddress) w)
              = channels w
            /\ bets (final (SCClient.settleChannel env partnerAddress) w)
               = bets w
            /\ Forall (fun e => persists e = false /\ emits e = false)
                 (effects (SCClient.settleChannel env partnerAddress) w))
    as Hobs.
  { intros o es Hrun Hes. rewrite (effects_of_logged _ _ _ _ Hrun).
    unfold final. by rewrite Hrun. }
  destruct (closed_in_dec w id) as [(c & Hc & Hs)|[Hc|(c & Hc & Hn)]].
  - apply not_closed_false in Hs as Hn.
    destruct (getSettleData env (logged w (settle_lookup env partnerAddress)) c
                (Channel.localCloseBalanceHash c)
                (Channel.remoteCloseBalanceHash c)) as [d|e] eqn:Hd.
    + destruct (Hobs _ _ (settleChannel_submits env partnerAddress w c d
                            Hc Hn Hd)) as (H1 & H2 & H3);
        [unfold settle_lookup; by repeat constructor|].
      do 3 (split; [done|]). intros c' e' Hc' _ Hd'. rewrite Hc in Hc'. injection Hc' as <-.
      congruence.
    + pose proof (settleChannel_assembly_fails env partnerAddress w c e
                    Hc Hn Hd) as Hrun.
      destruct (Hobs _ _ Hrun) as (H1 & H2 & H3);
        [unfold settle_lookup; by repeat constructor|].
      do 3 (split; [done|]). intros c' e' Hc' _ Hd'.
      rewrite Hc in Hc'. injection Hc' as <-. rewrite Hd in Hd'. injection Hd' as <-.
      rewrite (effects_of_logged _ _ _ _ Hrun). unfold result. rewrite Hrun.
      split; [done|]. unfold settle_lookup. by repeat constructor.
  - destruct (Hobs _ _ (settleChannel_unknown env partnerAddress w Hc))
      as (H1 & H2 & H3);
      [unfold settle_refusal, settle_lookup; by repeat constructor|].
    do 3 (split; [done|]). intros c' e' Hc'. congruence.
  - destruct (Hobs _ _ (settleChannel_wrong_status env partnerAddress w c
                          Hc Hn)) as (H1 & H2 & H3);
      [unfold settle_refusal, settle_lookup; by repeat constructor|].
    do 3 (split; [done|]). intros c' e' Hc' Hs. rewrite Hc in Hc'. injection Hc' as <-.
    apply not_closed_false in Hs. congruence.
Qed.

(** ** How the status gates of the methods fit together *)

Lemma initiatorSettle_submits_only_when_closed (env : Env) (id : ChannelId)
    (betId : nat) (w : World) (tx : ChainCall) :
  ChainSend tx ∈ effects (SCClient.initiatorSettle env id betId) w ->
  closed_in w id.
Proof.
  intros Hin.
  destruct (closed_in_dec w id) as [Hclosed|Hopen]; [done|].
 destruct Hopen as [Hn|(c' & Hc' & Hn)].
  - rewrite (effects_of_logged _ _ _ _
               (initiatorSettle_unknown_channel env id betId w Hn)) in Hin.
    unfold settle_reads in Hin. elem_cases Hin.
  - rewrite (effects_of_logged _ _ _ _
               (initiatorSettle_wrong_channel_status env id betId w c' Hc' Hn))
      in Hin.
    unfold settle_reads in Hin. elem_cases Hin.
Qed.

Lemma settleChannel_submits_only_when_closed (env : Env)
    (partnerAddress : Address) (w : World) (tx : ChainCall) :
  ChainSend tx ∈ effects (SCClient.settleChannel env partnerAddress) w ->
  closed_in w (getChannelIdentifier env partnerAddress).
Proof.
  intros Hin.
  destruct (closed_in_dec w (getChannelIdentifier env partnerAddress))
    as [Hclosed|[Hn|(c' & Hc' & Hn)]]; [done| |].
  - rewrite (effects_of_logged _ _ _ _
               (settleChannel_unknown env partnerAddress w Hn)) in Hin.
    unfold settle_refusal, settle_lookup in Hin. elem_cases Hin.
  - rewrite (effects_of_logged _ _ _ _
               (settleChannel_wrong_status env partnerAddress w c' Hc' Hn))
      in Hin.
    unfold settle_refusal, settle_lookup in Hin. elem_cases Hin.
Qed.

Lemma startBet_true_opened (env : Env) (id : ChannelId) (partner : Address)
    (mask modulo value : Z) (seed : string) (w : World) :
  result (SCClient.startBet env id partner mask modulo value seed) w
    = Return (VBool true) ->
  exists c, channels w !! id = Some c /\ Channel.status c = CHANNEL_OPENED.
Proof.
  intros Hres.
  destruct (startBet_true_inv env id partner mask modulo value seed w
              (final (SCClient.startBet env id partner mask modulo value seed) w))
    as (c & Hc & Hs & _); [|by exists c].
  unfold result, final in *.
  destruct (SCClient.startBet env id partner mask modulo value seed w).
  cbn in *. by subst.
Qed.

(** X13: No state of a channel lets a bet start and a settlement go out: in a
    world where startBet resolves to [true] for a channel, settleChannel and
    initiatorSettle on that channel resolve to [false]; and in a world where
    either of them submits a transaction, or where closeChannel is refused for
    a stored channel, startBet resolves to [undefined] without writing. *)
Theorem betting_and_settling_exclude (env : Env) (id : ChannelId)
    (partner : Address) (mask modulo value : Z) (seed : string) (betId : nat)
    (w : World) :
  getChannelIdentifier env partner = id ->
  let start := SCClient.startBet env id partner mask modulo value seed in
  let settle := SCClient.settleChannel env partner in
  let initiator := SCClient.initiatorSettle env id betId in
  let close := SCClient.closeChannel env partner in
  (result start w = Return (VBool true) ->
   result settle w = Return (VBool false)
   /\ result initiator w = Return (VBool false)
   /\ refused settle w /\ refused initiator w)
  /\ ((exists tx, ChainSend tx ∈ effects settle w
                  \/ ChainSend tx ∈ effects initiator w) ->
      result start w = Return VUndefined /\ refused start w)
  /\ (result close w = Return (VBool false) ->
      result start w = Return VUndefined /\ refused start w).
Proof.
  intros Hid start settle initiator close.
  assert (forall c, channels w !! id = Some c ->
                    Channel.status c <> CHANNEL_OPENED ->
                    result start w = Return VUndefined /\ refused start w)
    as Hstart.
  { intros c Hc Hs.
    pose proof (startBet_not_opened env id partner mask modulo value seed w c
                  Hc Hs) as Hrun.
    fold start in Hrun. split; [by unfold result; rewrite Hrun|].
    eapply refused_logged; [exact Hrun | by repeat constructor]. }
  split; [|split].
  - intros Htrue. apply startBet_true_opened in Htrue as (c & Hc & Hs).
    assert (SCClient.not_closed c = true) as Hn.
    { unfold SCClient.not_closed. by rewrite Hs. }
    pose proof Hc as Hc'. rewrite <- Hid in Hc'.
    pose proof (settleChannel_wrong_status env partner w c Hc' Hn) as H1.
    pose proof (initiatorSettle_wrong_channel_status env id betId w c Hc Hn)
      as H2.
    fold settle in H1. fold initiator in H2.
    split; [by unfold result; rewrite H1|].
    split; [by unfold result; rewrite H2|].
    split; (eapply refused_logged; [eassumption|]);
      unfold settle_refusal, settle_lookup, settle_reads; by repeat constructor.
  - intros (tx & Hin).
    assert (closed_in w id) as (c & Hc & Hs).
    { destruct Hin as [Hin|Hin].
      - rewrite <- Hid. by eapply settleChannel_submits_only_when_closed.
      - by eapply initiatorSettle_submits_only_when_closed. }
    apply (Hstart c Hc). destruct Hs as [-> | ->]; discriminate.
  - intros Hfalse.
    destruct (channels w !! id) as [c|] eqn:Hc.
    + apply (Hstart c); [done|]. intros Hs.
      pose proof Hc as Hc'. rewrite <- Hid in Hc'.
      unfold result, close in Hfalse.
      destruct (getCloseData env (logged w (settle_lookup env partner)) c)
        as [d|e] eqn:Hd.
      * rewrite (closeChannel_submits env partner w c d Hc' Hs Hd) in Hfalse.
        cbn [fst] in Hfalse. by destruct (chain env _).
      * by rewrite (closeChannel_assembly_fails env partner w c e Hc' Hs Hd)
          in Hfalse.
    + pose proof Hc as Hc'. rewrite <- Hid in Hc'.
      unfold result, close in Hfalse.
      by rewrite (closeChannel_unknown_channel env partner w Hc') in Hfalse.
Qed.

Lemma betting_and_settling_exclude_witness :
  let w := Scenario.world [Scenario.channel CHANNEL_OPENED None] [] in
  result (SCClient.settleChannel Scenario.env Scenario.bob) w
    = Return (VBool false)
  /\ result (SCClient.initiatorSettle Scenario.env Scenario.chan 1) w
     = Return (VBool false).
Proof.
  destruct (betting_and_settling_exclude Scenario.env Scenario.chan
              Scenario.bob 63 6 100 "seedA" 1
              (Scenario.world [Scenario.channel CHANNEL_OPENED None] []))
    as (Hexcl & _).
  - reflexivity.
  - destruct Hexcl as (Hsettle & Hinit & _); [by vm_compute|].
    exact (conj Hsettle Hinit).
Defined.

(** X14: On a channel whose stored status is Settled nothing goes out any more:
    startBet resolves to [undefined], closeChannel, settleChannel and
    initiatorSettle to [false], closeChannelCooperative to [false] with no
    message, and none of them writes to the store, emits or submits. *)
Theorem settled_channel_refuses_everything (Request : Type)
    (generate : ChannelId -> Address -> Z -> Address -> Z -> Request)
    (env : Env) (id : ChannelId) (partner : Address)
    (mask modulo value : Z) (seed : string) (betId : nat) (w : World)
    (c : Channel.t) :
  channels w !! id = Some c ->
  Channel.status c = CHANNEL_SETTLED ->
  getChannelIdentifier env partner = id ->
  let start := SCClient.startBet env id partner mask modulo value seed in
  let close := SCClient.closeChannel env partner in
  let cooperative :=
    Cooperative.closeChannelCooperative Request generate env partner in
  let settle := SCClient.settleChannel env partner in
  let initiator := SCClient.initiatorSettle env id betId in
  result start w = Return VUndefined
  /\ result close w = Return (VBool false)
  /\ result cooperative w = Return (VBool false, [])
  /\ result settle w = Return (VBool false)
  /\ result initiator w = Return (VBool false)
  /\ refused start w /\ refused close w /\ refused cooperative w
  /\ refused settle w /\ refused initiator w.
Proof.
  intros Hc Hs Hid start close cooperative settle initiator.
  pose proof Hc as Hc'. rewrite <- Hid in Hc'.
  assert (Channel.status c <> CHANNEL_OPENED) as Hno by by rewrite Hs.
  assert (SCClient.not_closed c = true) as Hn.
  { unfold SCClient.not_closed. by rewrite Hs. }
  pose proof (startBet_not_opened env id partner mask modulo value seed w c
                Hc Hno) as H1.
  pose proof (closeChannel_not_opened env partner w c Hc' Hno) as H2.
  pose proof (closeChannelCooperative_not_opened Request generate env partner
                w c Hc' Hno) as H3.
  pose proof (settleChannel_wrong_status env partner w c Hc' Hn) as H4.
  pose proof (initiatorSettle_wrong_channel_status env id betId w c Hc Hn)
    as H5.
  fold start in H1. fold close in H2. fold cooperative in H3.
  fold settle in H4. fold initiator in H5.
  unfold result. rewrite H1, H2, H3, H4, H5. cbn [fst].
  do 5 (split; [done|]).
  repeat split; (eapply refused_logged; [eassumption|]);
    unfold settle_refusal, settle_lookup, settle_reads; by repeat constructor.
Qed.

Lemma settled_channel_refuses_everything_witness :
  let w := Scenario.world [Scenario.channel CHANNEL_SETTLED (Some 1)]
                          [Scenario.bet BET_FINISH] in
  result (SCClient.startBet Scenario.env Scenario.chan Scenario.bob 63 6 100
            "seedA") w = Return VUndefined
  /\ result (SCClient.closeChannel Scenario.env Scenario.bob) w
     = Return (VBool false)
  /\ result (Cooperative.closeChannelCooperative unit
               (fun _ _ _ _ _ => tt) Scenario.env Scenario.bob) w
     = Return (VBool false, []).
Proof.
  destruct (settled_channel_refuses_everything unit (fun _ _ _ _ _ => tt)
              Scenario.env Scenario.chan Scenario.bob 63 6 100 "seedA" 1
              (Scenario.world [Scenario.channel CHANNEL_SETTLED (Some 1)]
                              [Scenario.bet BET_FINISH])
              (Scenario.channel CHANNEL_SETTLED (Some 1)))
    as (H1 & H2 & H3 & _).
  - vm_compute. reflexivity.
  - reflexivity.
  - reflexivity.
  - exact (conj H1 (conj H2 H3)).
Defined.

(** ** on: what registrations leave alone *)

Lemma register_all_stores (regs : list (string * Callback)) (w : World) :
  channels (final (register_all regs) w) = channels w
  /\ bets (final (register_all regs) w) = bets w
  /\ socket (final (register_all regs) w) = socket w
  /\ exists n,
       (n <= length regs)%nat
       /\ trace (final (register_all regs) w)
          = trace w ++ replicate n (LogInfo "onEvent set event now")
       /\ (result (register_all regs) w = Return tt -> n = length regs).
Proof.
  revert w. induction regs as [|[e cb] rest IH]; intros w.
  - do 3 (split; [done|]). exists 0%nat. cbn. by rewrite app_nil_r.
  - unfold final, result. rewrite register_all_cons, on_run.
    destruct (SCClient.assign e cb (eventList w)) as [o|err].
    + destruct (IH (mkWorld (channels w) (bets w) (socket w) o
                            (trace w ++ [LogInfo "onEvent set event now"])))
        as (H1 & H2 & H3 & n & Hn & Htrace & Hall).
      unfold final, result in *. cbn [channels bets socket trace] in *.
      do 3 (split; [done|]). exists (S n). split; [cbn; lia|].
      split; [rewrite Htrace, <- app_assoc; reflexivity|].
      intros Hres. cbn. by rewrite (Hall Hres).
    + cbn [fst snd]. do 3 (split; [done|]). exists 1%nat.
      split; [cbn; lia|]. split; [done|]. done.
Qed.

(** X15: Registrations touch nothing but the event list and the log: after
    any sequence of [on] calls, finished or stopped by a TypeError, the
    channel and bet stores and the socket are as they were, one line was
    logged per call made, no own property of the event list was removed, and
    the own property under a name none of the calls mentions is unchanged.
    When none of the calls is under the name __proto__, the prototype is
    unchanged too, and so is the handler of every name the calls do not
    mention. *)
Theorem on_only_touches_eventList (regs : list (string * Callback))
    (w : World) :
  let w' := final (register_all regs) w in
  channels w' = channels w
  /\ bets w' = bets w
  /\ socket w' = socket w
  /\ (exists n,
        (n <= length regs)%nat
        /\ trace w' = trace w ++ replicate n (LogInfo "onEvent set event now")
        /\ (result (register_all regs) w = Return tt -> n = length regs))
  /\ dom (own (eventList w)) ⊆ dom (own (eventList w'))
  /\ (forall name, name ∉ regs.*1 ->
        own (eventList w') !! name = own (eventList w) !! name)
  /\ ("__proto__" ∉ regs.*1 ->
      prototype (eventList w') = prototype (eventList w)
      /\ forall event, event ∉ regs.*1 ->
           EventManager.handler event w' = EventManager.handler event w).
Proof.
  cbv zeta.
  destruct (register_all_stores regs w) as (H1 & H2 & H3 & H4).
  destruct (register_all_frame regs w) as (Hown & Hproto & Hdom).
  do 4 (split; [done|]). split; [done|]. split; [done|].
  intros Hnot. split; [by apply Hproto|].
  intros event Hevent. by apply register_all_handler_frame.
Qed.
